(** * The job-submission workflow of the HealthScribe demo front end

    A shallow embedding of [src/components/NewConversation/NewConversation.tsx]:
    the upload-progress callback [s3UploadCallback], the construction of the
    job parameters and the asynchronous [submitJob] handler (upload, job
    creation, status polling).  The source file comes in two revisions, one
    laying the recording choice out with a radio group and one with tabs;
    they share the control flow and differ in notification ids, texts and
    polling constants.  Both are embedded, indexed by [Revision]. *)

From Stdlib Require Import ZArith QArith Qround Qpower String List Bool Lia Lqa
  DecimalString.
Import ListNotations.

Open Scope string_scope.
Open Scope Z_scope.

(** ** JavaScript values *)

Module JS.

(** A thrown value, read by the handlers as [(e as Error).message]. *)
Record Error := { message : string }.

(** [x || d] on an optional number: [undefined] and [0] are falsy. *)
Definition or_default (x : option Z) (d : Z) : Z :=
  match x with
  | Some v => if v =? 0 then d else v
  | None => d
  end.

(** [Math.round]: the integer nearest to the value of a number, halves
    rounded towards plus infinity; it is exact on the value it is given. *)
Definition Math_round (q : Q) : Z := Qfloor (q + (1 # 2)).

(** An integer inside a template literal. *)
Definition number_to_string (z : Z) : string :=
  NilZero.string_of_int (Z.to_int z).

Definition template_number (z : option Z) : string :=
  match z with
  | Some v => number_to_string v
  | None => "undefined"
  end.

(** Truthiness of an optional string: [undefined] and [''] are falsy. *)
Definition truthy (s : option string) : bool :=
  match s with
  | Some v => negb (v =? "")%string
  | None => false
  end.

(** [a === 'lit'] for an optional string [a]. *)
Definition strict_eq (a : option string) (lit : string) : bool :=
  match a with
  | Some v => (v =? lit)%string
  | None => false
  end.

(** How a promise settles. *)
Inductive Settled (A : Type) : Type :=
| Resolves (a : A)
| Rejects (e : Error).
Arguments Resolves {A} a.
Arguments Rejects {A} e.

End JS.
Import JS.

(** ** Data model *)

(** [Progress] of [@aws-sdk/lib-storage]: every field is optional; the
    counts are whole numbers, of bytes or of parts, which a double holds
    exactly. *)
Record Progress := {
  loaded : option Z;
  part : option Z;
  total : option Z
}.

(** The browser [File] as far as the handler reads it. *)
Record File := {
  name : string;
  type : string
}.

(** The form state [audioDetails]. *)
Record AudioDetails := {
  maxSpeakers : Z;          (* speakerPartitioning.maxSpeakers *)
  channel1 : string         (* channelIdentification.channel1 *)
}.

Record ChannelDefinition := {
  ChannelId : Z;
  ParticipantRole : string
}.

(** The two shapes of [audioParams]. *)
Inductive AudioParams :=
| SpeakerPartitioningParams (MaxSpeakerLabels : Z) (ShowSpeakerLabels : bool)
| ChannelIdentificationParams (ChannelDefinitions : list ChannelDefinition)
                              (ChannelIdentification : bool).

Record S3Location := {
  Bucket : string;
  Key : string
}.

Record JobParams := {
  MedicalScribeJobName : string;
  DataAccessRoleArn : string;
  OutputBucketName : string;
  MediaFileUri : string;
  audioParams : AudioParams
}.

Record UploadParams := {
  upload_location : S3Location;
  Body : File;
  ContentType : string
}.

(** Responses of the HealthScribe calls, read through
    [r?.data?.MedicalScribeJob?.MedicalScribeJobStatus]. *)
Record MedicalScribeJobT := { MedicalScribeJobStatus : option string }.
Record ResponseData := { MedicalScribeJob : option MedicalScribeJobT }.
Record Response := { data : option ResponseData }.

Definition response_data (r : option Response) : option ResponseData :=
  match r with
  | Some x => data x
  | None => None
  end.

Definition response_status (r : option Response) : option string :=
  match response_data r with
  | Some d =>
      match MedicalScribeJob d with
      | Some j => MedicalScribeJobStatus j
      | None => None
      end
  | None => None
  end.

Inductive NotificationType := info | success | error.

(** The argument of [updateProgressBar]. *)
Record ProgressNotification := {
  id : string;
  value : Z;
  description : string;
  ntype : option NotificationType;
  additionalInfo : option string
}.

Record VerifyResult := {
  verified : bool;
  verify_message : string
}.

(** The component state held by [useState]. *)
Record ComponentState := {
  isSubmitting : bool;
  formError : string;
  jobName : string;
  audioSelection : string;
  audioDetails : AudioDetails;
  filePath : option File
}.

(** ** The two revisions of the component *)

Inductive Revision := RadioLayout | TabsLayout.

(** Id of the notification posted by [s3UploadCallback]. *)
Definition uploadProgressId (r : Revision) (jobName : string) : string :=
  match r with
  | RadioLayout => "New HealthScribe Job: " ++ jobName
  | TabsLayout => "Transcribing Audio"
  end.

(** Id of the initial notification, posted before the upload. *)
Definition initialId (r : Revision) : string := "Transcribing Audio".

(** Id of the notification posted when the upload rejects. *)
Definition uploadErrorId (r : Revision) (jobName : string) : string :=
  match r with
  | RadioLayout => "New Job: " ++ jobName
  | TabsLayout => "Transcribing Audio"
  end.

(** Id of every notification of the creation and polling phase. *)
Definition jobId (r : Revision) (jobName : string) : string :=
  match r with
  | RadioLayout => "New HealthScribe Job: " ++ jobName
  | TabsLayout => "Transcribing Audio"
  end.

Definition createdDescription (r : Revision) : string :=
  match r with
  | RadioLayout => "Scribe job submitted"
  | TabsLayout => "Scribe submitted"
  end.

Definition pollDescription (r : Revision) : string :=
  match r with
  | RadioLayout => "Scribe job submitted"
  | TabsLayout => "Scribe in progress"
  end.

Definition completedInfo (r : Revision) : string :=
  match r with
  | RadioLayout => "Audio file successfully uploaded and submitted to transcription."
  | TabsLayout => "Audio file successfully transcribed."
  end.

(** [let progress = ...] before the loop. *)
Definition pollStart (r : Revision) : Z :=
  match r with RadioLayout => 10 | TabsLayout => 5 end.

(** [progress += ...] in the loop. *)
Definition pollStep (r : Revision) : Z :=
  match r with RadioLayout => 5 | TabsLayout => 3 end.

(** [if (progress >= c) progress = c]. *)
Definition pollCap (r : Revision) : Z :=
  match r with RadioLayout => 90 | TabsLayout => 95 end.

(** ** Double-precision arithmetic

    A JavaScript number is an IEEE 754 double.  The value of a finite
    double is a rational, and a division or a multiplication of doubles
    gives the exact quotient or product rounded to the nearest double, ties
    to the even mantissa.  The operands here are byte counts, integers that
    a double holds exactly, and their quotients and products, all far inside
    the normal range of the format, where the nearest double is the nearest
    rational with 53 significant bits. *)

Definition pow2 (k : Z) : Q := (2 ^ k)%Q.

(** The binary exponent of a positive rational: [2^e <= q < 2^(e+1)]. *)
Definition ilog2 (q : Q) : Z :=
  let c := Z.log2 (Qnum q) - Z.log2 (Z.pos (Qden q)) in
  if Qle_bool (pow2 c) q then c else c - 1.

(** The nearest integer, ties to even. *)
Definition rne (x : Q) : Z :=
  let f := Qfloor x in
  match Qcompare (x - inject_Z f) (1 # 2) with
  | Lt => f
  | Gt => f + 1
  | Eq => if Z.even f then f else f + 1
  end.

(** A positive rational rounded to a mantissa of 53 bits. *)
Definition roundPos (q : Q) : Q :=
  let k := ilog2 q - 52 in
  (inject_Z (rne (q / pow2 k)) * pow2 k)%Q.

(** The nearest double. *)
Definition round64 (q : Q) : Q :=
  match Qcompare q 0 with
  | Eq => 0%Q
  | Gt => roundPos q
  | Lt => (- roundPos (- q))%Q
  end.

(** [a / b] and [a * b] on doubles. *)
Definition fdiv (a b : Q) : Q := round64 (a / b).

Definition fmul (a b : Q) : Q := round64 (a * b).

(** ** Upload progress *)

(** [Math.round(((loaded || 1) / (total || 100)) * 99)] *)
Definition uploadValue (p : Progress) : Z :=
  Math_round (fmul (fdiv (inject_Z (or_default (loaded p) 1))
                         (inject_Z (or_default (total p) 100)))
                   99).

(** [Math.round((x || 1) / 1024 / 1024)] *)
Definition megabytes (x : option Z) : Z :=
  Math_round (fdiv (fdiv (inject_Z (or_default x 1)) 1024) 1024).

(** The notification [s3UploadCallback] hands to [updateProgressBar]. *)
Definition uploadNotification (r : Revision) (jobName : string) (p : Progress)
  : ProgressNotification :=
  let value := uploadValue p in
  let loadedMb := megabytes (loaded p) in
  let totalMb := megabytes (total p) in
  {| id := uploadProgressId r jobName;
     value := value;
     description := "Uploaded part " ++ template_number (part p) ++ ", "
                    ++ number_to_string loadedMb ++ "MB / "
                    ++ number_to_string totalMb ++ "MB";
     ntype := None;
     additionalInfo := None |}.

(** ** Effects

    [submitJob] is an [async] function that calls setters of the component
    state, posts notifications, awaits remote calls and may throw.  A run
    threads the component state and a chronological trace of the calls made
    to the outside; it completes normally, by a throw, or is still pending
    on an [await] when the loop budget of the model is used up. *)

Inductive Event :=
| Ev_preventDefault
| Ev_setIsSubmitting (b : bool)
| Ev_setFormError (s : string)
| Ev_scrollTo (x y : Z)
| Ev_updateProgressBar (n : ProgressNotification)
| Ev_multipartUpload (p : UploadParams)
| Ev_startMedicalScribeJob (p : JobParams)
| Ev_getHealthScribeJob (jobName : string)
| Ev_sleep (ms : Z)
| Ev_navigate (path : string).

Record Run := {
  component : ComponentState;
  trace : list Event
}.

Inductive Completion (A : Type) : Type :=
| Normal (a : A)
| Throw (e : Error)
| Pending.
Arguments Normal {A} a.
Arguments Throw {A} e.
Arguments Pending {A}.

Definition M (A : Type) : Type := Run -> Completion A * Run.

Definition ret {A} (a : A) : M A := fun s => (Normal a, s).

Definition bind {A B} (m : M A) (k : A -> M B) : M B :=
  fun s =>
    match m s with
    | (Normal a, s') => k a s'
    | (Throw e, s') => (Throw e, s')
    | (Pending, s') => (Pending, s')
    end.

Definition throw {A} (e : Error) : M A := fun s => (Throw e, s).

Definition pending {A} : M A := fun s => (Pending, s).

(** [try { m } catch (e) { h e }] *)
Definition try_catch {A} (m : M A) (h : Error -> M A) : M A :=
  fun s =>
    match m s with
    | (Throw e, s') => h e s'
    | r => r
    end.

Declare Scope js_scope.
Delimit Scope js_scope with js.
Notation "x <- m ;; k" := (bind m (fun x => k))
  (at level 61, m at next level, right associativity) : js_scope.
Notation "m ;; k" := (bind m (fun _ => k))
  (at level 61, right associativity) : js_scope.
Open Scope js_scope.

Definition emit (e : Event) : M unit :=
  fun s => (Normal tt, {| component := component s; trace := trace s ++ [e] |}).

Definition modify (f : ComponentState -> ComponentState) : M unit :=
  fun s => (Normal tt, {| component := f (component s); trace := trace s |}).

Definition await {A} (p : Settled A) : M A :=
  match p with
  | Resolves a => ret a
  | Rejects e => throw e
  end.

Definition set_isSubmitting (b : bool) (c : ComponentState) : ComponentState :=
  {| isSubmitting := b;
     formError := formError c;
     jobName := jobName c;
     audioSelection := audioSelection c;
     audioDetails := audioDetails c;
     filePath := filePath c |}.

Definition set_formError (m : string) (c : ComponentState) : ComponentState :=
  {| isSubmitting := isSubmitting c;
     formError := m;
     jobName := jobName c;
     audioSelection := audioSelection c;
     audioDetails := audioDetails c;
     filePath := filePath c |}.

Definition preventDefault : M unit := emit Ev_preventDefault.

Definition setIsSubmitting (b : bool) : M unit :=
  emit (Ev_setIsSubmitting b) ;; modify (set_isSubmitting b).

Definition setFormError (m : string) : M unit :=
  emit (Ev_setFormError m) ;; modify (set_formError m).

Definition scrollTo (x y : Z) : M unit := emit (Ev_scrollTo x y).

Definition updateProgressBar (n : ProgressNotification) : M unit :=
  emit (Ev_updateProgressBar n).

Definition sleep (ms : Z) : M unit := emit (Ev_sleep ms).

Definition navigate (path : string) : M unit := emit (Ev_navigate path).

(** ** The collaborators of the handler

    What the handler imports and does not define is a parameter of the
    model: the validator [verifyJobParams] of [./formUtils], the hook
    [useS3] ([outputBucket], [getUploadMetadata]), the role configured in
    [aws-custom.json], [JSON.stringify], and the remote calls of
    [@/utils/S3Api] and [@/utils/HealthScribeApi].  A remote call is given
    by how its promise settles; an upload also by the progress reports it
    makes before settling; the [n]-th status query by its own answer. *)

Record World := {
  outputBucket : string;
  getUploadMetadata : S3Location;
  healthScribeServiceRole : string;
  verifyJobParams : JobParams -> VerifyResult;
  uploadProgress : UploadParams -> list Progress;
  uploadSettles : UploadParams -> Settled unit;
  startJobSettles : JobParams -> Settled (option Response);
  getJobSettles : nat -> string -> Settled (option Response);
  JSON_stringify : option ResponseData -> string
}.

Fixpoint forEach {A} (f : A -> M unit) (l : list A) : M unit :=
  match l with
  | [] => ret tt
  | x :: l' => f x ;; forEach f l'
  end.

(** The [TypeError] of reading [name] off an [undefined] file. *)
Definition noFileError : Error :=
  {| message := "Cannot read properties of undefined (reading 'name')" |}.

Section Handler.

Variable w : World.
Variable r : Revision.
(** The state captured by the closure of the render that made the handler. *)
Variable st : ComponentState.

Definition s3UploadCallback (p : Progress) : M unit :=
  updateProgressBar (uploadNotification r (jobName st) p).

(** Modelled from the spec: [multipartUpload] of [@/utils/S3Api] is not
    among the sources.  The spec has it upload the payload in parts, invoke
    the progress callback per part and reject on a transport failure; which
    reports are made and how the promise settles is the world's. *)
Definition multipartUpload (p : UploadParams) (callbackFn : Progress -> M unit)
  : M unit :=
  emit (Ev_multipartUpload p) ;;
  forEach callbackFn (uploadProgress w p) ;;
  await (uploadSettles w p).

(** Modelled from the spec: [startMedicalScribeJob] and [getHealthScribeJob]
    of [@/utils/HealthScribeApi] are not among the sources.  The spec has
    them as remote operations that answer with an optional job status or
    throw; the answer is the world's. *)
Definition startMedicalScribeJob (p : JobParams) : M (option Response) :=
  emit (Ev_startMedicalScribeJob p) ;;
  await (startJobSettles w p).

Definition getHealthScribeJob (n : nat) (jobName : string)
  : M (option Response) :=
  emit (Ev_getHealthScribeJob jobName) ;;
  await (getJobSettles w n jobName).

(** [const audioParams = audioSelection === 'speakerPartitioning' ? ... : ...] *)
Definition buildAudioParams : AudioParams :=
  if (audioSelection st =? "speakerPartitioning")%string
  then SpeakerPartitioningParams (maxSpeakers (audioDetails st)) true
  else ChannelIdentificationParams
         [ {| ChannelId := 0;
              ParticipantRole := channel1 (audioDetails st) |};
           {| ChannelId := 1;
              ParticipantRole :=
                if (channel1 (audioDetails st) =? "CLINICIAN")%string
                then "PATIENT" else "CLINICIAN" |} ]
         true.

Definition buildS3Location (f : File) : S3Location :=
  let uploadLocation := getUploadMetadata w in
  {| Bucket := Bucket uploadLocation;
     Key := Key uploadLocation ++ "/" ++ name f |}.

Definition buildJobParams (s3Location : S3Location) : JobParams :=
  {| MedicalScribeJobName := jobName st;
     DataAccessRoleArn := healthScribeServiceRole w;
     OutputBucketName := outputBucket w;
     MediaFileUri := "s3://" ++ Bucket s3Location ++ "/" ++ Key s3Location;
     audioParams := buildAudioParams |}.

Definition initialNotification : ProgressNotification :=
  {| id := initialId r;
     value := 0;
     description := "Uploading Audio in progress...";
     ntype := None;
     additionalInfo := None |}.

Definition uploadFailedNotification (f : File) (e : Error)
  : ProgressNotification :=
  {| id := uploadErrorId r (jobName st);
     value := 0;
     description := "Uploading Audio failed";
     ntype := Some error;
     additionalInfo :=
       Some ("Error uploading " ++ name f ++ ": " ++ message e) |}.

Definition createdNotification : ProgressNotification :=
  {| id := jobId r (jobName st);
     value := 20;
     description := createdDescription r;
     ntype := None;
     additionalInfo :=
       Some "Audio file successfully uploaded and submitted to transcription." |}.

Definition pollNotification (progress : Z) : ProgressNotification :=
  {| id := jobId r (jobName st);
     value := progress;
     description := pollDescription r;
     ntype := None;
     additionalInfo := Some "Transcribing audio..." |}.

Definition completedNotification : ProgressNotification :=
  {| id := jobId r (jobName st);
     value := 100;
     description := "Scribe job submitted";
     ntype := Some success;
     additionalInfo := Some (completedInfo r) |}.

Definition unconfirmedNotification (startJob : option Response)
  : ProgressNotification :=
  {| id := jobId r (jobName st);
     value := 100;
     description := "Unable to confirm job submission";
     ntype := Some info;
     additionalInfo :=
       Some ("Response from HealthScribe: "
             ++ JSON_stringify w (response_data startJob)) |}.

Definition submitFailedNotification (e : Error) : ProgressNotification :=
  {| id := jobId r (jobName st);
     value := 0;
     description := "Submitting job to HealthScribe failed";
     ntype := Some error;
     additionalInfo :=
       Some ("Error submitting job to HealthScribe: " ++ message e) |}.

(** [progress += step; if (progress >= cap) progress = cap] *)
Definition advance (progress : Z) : Z :=
  let progress := progress + pollStep r in
  if progress >=? pollCap r then pollCap r else progress.

(** The [while (true)] loop; [n] counts the status queries made so far and
    [fuel] bounds the iterations the model follows. *)
Fixpoint pollLoop (fuel : nat) (n : nat) (progress : Z) : M unit :=
  match fuel with
  | O => pending
  | S fuel' =>
      sleep 5000 ;;
      getJob <- getHealthScribeJob n (jobName st) ;;
      let jobstatus := response_status getJob in
      updateProgressBar (pollNotification progress) ;;
      let progress := advance progress in
      if strict_eq jobstatus "COMPLETED"
      then
        updateProgressBar completedNotification ;;
        sleep 500 ;;
        navigate ("/conversation/" ++ jobName st)
      else pollLoop fuel' (S n) progress
  end.

(** The second [try] block with its handler. *)
Definition createAndPoll (fuel : nat) (jobParams : JobParams) : M unit :=
  try_catch
    (startJob <- startMedicalScribeJob jobParams ;;
     if truthy (response_status startJob)
     then
       updateProgressBar createdNotification ;;
       pollLoop fuel 0%nat (pollStart r)
     else
       updateProgressBar (unconfirmedNotification startJob))
    (fun e =>
       updateProgressBar (submitFailedNotification e) ;;
       setIsSubmitting false ;;
       throw e).

(** The first [try] block with its handler. *)
Definition uploadAudio (f : File) (s3Location : S3Location) : M unit :=
  try_catch
    (multipartUpload {| upload_location := s3Location;
                        Body := f;
                        ContentType := type f |}
                     s3UploadCallback)
    (fun e =>
       updateProgressBar (uploadFailedNotification f e) ;;
       setIsSubmitting false ;;
       throw e).

Definition submitJob (fuel : nat) : M unit :=
  preventDefault ;;
  setIsSubmitting true ;;
  setFormError "" ;;
  match filePath st with
  | None =>
      (* [(filePath as File).name] on [undefined] *)
      throw noFileError
  | Some f =>
      let s3Location := buildS3Location f in
      let jobParams := buildJobParams s3Location in
      let verifyParamResults := verifyJobParams w jobParams in
      if negb (verified verifyParamResults)
      then
        setFormError (verify_message verifyParamResults) ;;
        setIsSubmitting false
      else
        scrollTo 0 0 ;;
        updateProgressBar initialNotification ;;
        uploadAudio f s3Location ;;
        createAndPoll fuel jobParams ;;
        setIsSubmitting false
  end.

End Handler.

(** Running the handler on a freshly rendered component. *)
Definition runSubmit (w : World) (r : Revision) (st : ComponentState)
  (fuel : nat) : Completion unit * Run :=
  submitJob w r st fuel {| component := st; trace := [] |}.

(** ** Observations on a trace *)

Definition notifications (t : list Event) : list ProgressNotification :=
  flat_map (fun e => match e with Ev_updateProgressBar n => [n] | _ => [] end) t.

Definition navigations (t : list Event) : list string :=
  flat_map (fun e => match e with Ev_navigate p => [p] | _ => [] end) t.

Definition startCalls (t : list Event) : list JobParams :=
  flat_map (fun e => match e with Ev_startMedicalScribeJob p => [p] | _ => [] end) t.

Definition getCalls (t : list Event) : list string :=
  flat_map (fun e => match e with Ev_getHealthScribeJob j => [j] | _ => [] end) t.

Definition isError (n : ProgressNotification) : bool :=
  match ntype n with Some error => true | _ => false end.

Definition isSuccess (n : ProgressNotification) : bool :=
  match ntype n with Some success => true | _ => false end.

Definition isInfo (n : ProgressNotification) : bool :=
  match ntype n with Some info => true | _ => false end.

(** A terminal notification is one typed success or error. *)
Definition isTerminal (n : ProgressNotification) : bool :=
  isSuccess n || isError n.

(** The events up to the settling of the upload. *)
Definition uploadPhase (w : World) (r : Revision) (st : ComponentState)
  (f : File) : list Event :=
  let p := {| upload_location := buildS3Location w f;
              Body := f;
              ContentType := type f |} in
  [ Ev_preventDefault;
    Ev_setIsSubmitting true;
    Ev_setFormError "";
    Ev_scrollTo 0 0;
    Ev_updateProgressBar (initialNotification r);
    Ev_multipartUpload p ]
  ++ map (fun q => Ev_updateProgressBar (uploadNotification r (jobName st) q))
         (uploadProgress w p).

(** The events of [k] iterations of the loop that do not see COMPLETED. *)
Fixpoint pollPhase (r : Revision) (st : ComponentState) (k : nat)
  (progress : Z) : list Event :=
  match k with
  | O => []
  | S k' =>
      [ Ev_sleep 5000;
        Ev_getHealthScribeJob (jobName st);
        Ev_updateProgressBar (pollNotification r st progress) ]
      ++ pollPhase r st k' (advance r progress)
  end.

(** The events of the iteration that sees COMPLETED. *)
Definition completedPhase (r : Revision) (st : ComponentState)
  (progress : Z) : list Event :=
  [ Ev_sleep 5000;
    Ev_getHealthScribeJob (jobName st);
    Ev_updateProgressBar (pollNotification r st progress);
    Ev_updateProgressBar (completedNotification r st);
    Ev_sleep 500;
    Ev_navigate ("/conversation/" ++ jobName st) ].

(** [progress] after [k] iterations. *)
Fixpoint advanceN (r : Revision) (k : nat) (progress : Z) : Z :=
  match k with
  | O => progress
  | S k' => advanceN r k' (advance r progress)
  end.

(** Values of the notifications that carry the id [i], in posting order. *)
Definition valuesOf (i : string) (l : list ProgressNotification) : list Z :=
  map value (filter (fun n => (id n =? i)%string) l).

Fixpoint nondecreasing (l : list Z) : bool :=
  match l with
  | x :: (y :: _) as l' => (x <=? y) && nondecreasing l'
  | _ => true
  end.

(** The notifications posted before the first terminal one. *)
Fixpoint untilTerminal (l : list ProgressNotification)
  : list ProgressNotification :=
  match l with
  | [] => []
  | n :: l' => if isTerminal n then [] else n :: untilTerminal l'
  end.

(** ** The notification sink *)

(** Modelled from the spec: [updateProgressBar] of [@/store/notifications]
    is not part of the sources at hand.  The spec describes it as an ordered
    collection of entries keyed by id with one operation, upsert by id:
    replace the entry if present, otherwise append. *)
Fixpoint upsert (n : ProgressNotification) (sink : list ProgressNotification)
  : list ProgressNotification :=
  match sink with
  | [] => [n]
  | m :: sink' =>
      if (id m =? id n)%string then n :: sink' else m :: upsert n sink'
  end.

Definition sinkAfter (l : list ProgressNotification)
  : list ProgressNotification :=
  fold_left (fun sink n => upsert n sink) l [].

(** ** The component between submissions *)

(** [generateFilename] with the value [uuidv4()] returned. *)
Definition generateFilename (uuid : string) : string :=
  let filename := "session-" ++ uuid in
  filename.

(** [useState(init)]: the initial value counts on the first render only. *)
Definition useState {A} (stored : option A) (init : A) : A :=
  match stored with
  | Some v => v
  | None => init
  end.

(** One render of the component: what each [useState] hands out, given the
    state kept from the previous render (none on mount) and the value this
    render's call of [uuidv4] returns. *)
Definition render (kept : option ComponentState) (uuid : string)
  : ComponentState :=
  {| isSubmitting := useState (option_map isSubmitting kept) false;
     formError := useState (option_map formError kept) "";
     jobName := useState (option_map jobName kept) (generateFilename uuid);
     audioSelection :=
       useState (option_map audioSelection kept) "speakerPartitioning";
     audioDetails :=
       useState (option_map audioDetails kept)
                {| maxSpeakers := 2; channel1 := "CLINICIAN" |};
     filePath := useState (option_map filePath kept) None |}.

(** [setFilePath], called by the dropzone and by the effect that follows the
    recorder. *)
Definition set_filePath (f : option File) (c : ComponentState)
  : ComponentState :=
  {| isSubmitting := isSubmitting c;
     formError := formError c;
     jobName := jobName c;
     audioSelection := audioSelection c;
     audioDetails := audioDetails c;
     filePath := f |}.

(** A submission from a rendered page, and the page as rendered next, with
    the state the handler's setters left. *)
Definition submitFrom (w : World) (r : Revision) (page : ComponentState)
  (fuel : nat) : Completion unit * Run :=
  runSubmit w r page fuel.

Definition rerender (after : Completion unit * Run) (uuid : string)
  : ComponentState :=
  render (Some (component (snd after))) uuid.

(** ** Shapes of a run *)

(** A run with further events. *)
Definition extend (s : Run) (es : list Event) : Run :=
  {| component := component s; trace := trace s ++ es |}.

(** The job parameters and the upload request the handler builds. *)
Definition jobParamsOf (w : World) (st : ComponentState) (f : File)
  : JobParams :=
  buildJobParams w st (buildS3Location w f).

Definition uploadParamsOf (w : World) (f : File) : UploadParams :=
  {| upload_location := buildS3Location w f;
     Body := f;
     ContentType := type f |}.

(** The component state once the handler has announced the submission. *)
Definition submitting (st : ComponentState) : ComponentState :=
  set_formError "" (set_isSubmitting true st).

(** The handler's catch blocks: post the notification, reset the flag. *)
Definition failed (s : Run) (n : ProgressNotification) : Run :=
  {| component := set_isSubmitting false (component s);
     trace := trace s ++ [Ev_updateProgressBar n; Ev_setIsSubmitting false] |}.

(** The last statement of the handler. *)
Definition finish (s : Run) : Run :=
  {| component := set_isSubmitting false (component s);
     trace := trace s ++ [Ev_setIsSubmitting false] |}.

(** Every notification posted in a run satisfies [P]. *)
Definition posts (P : ProgressNotification -> Prop) (s : Run) : Prop :=
  Forall P (notifications (trace s)).

(** Two component states that differ at most in the submitting flag and the
    form error. *)
Definition sameForm (a b : ComponentState) : Prop :=
  jobName a = jobName b
  /\ audioSelection a = audioSelection b
  /\ audioDetails a = audioDetails b
  /\ filePath a = filePath b.

(** ** The ways a submission can go *)

(** How a run of the handler from a page with a selected file ends, or that
    it has not ended: [k] counts the iterations of the loop that saw a
    status other than COMPLETED. *)
Inductive Outcome :=
| Invalid
| UploadFailed (e : Error)
| CreateFailed (e : Error)
| Unconfirmed (startJob : option Response)
| Polling (k : nat)
| PollFailed (k : nat) (e : Error)
| Completed (k : nat).

(** The answers of the status queries decide how the loop goes. *)
Fixpoint pollOutcome (w : World) (st : ComponentState) (fuel n k : nat)
  : Outcome :=
  match fuel with
  | O => Polling k
  | S fuel' =>
      match getJobSettles w n (jobName st) with
      | Rejects e => PollFailed k e
      | Resolves g =>
          if strict_eq (response_status g) "COMPLETED"
          then Completed k
          else pollOutcome w st fuel' (S n) (S k)
      end
  end.

(** The validator and the remote answers decide how the submission goes. *)
Definition outcome (w : World) (st : ComponentState) (f : File) (fuel : nat)
  : Outcome :=
  if negb (verified (verifyJobParams w (jobParamsOf w st f)))
  then Invalid
  else
    match uploadSettles w (uploadParamsOf w f) with
    | Rejects e => UploadFailed e
    | Resolves _ =>
        match startJobSettles w (jobParamsOf w st f) with
        | Rejects e => CreateFailed e
        | Resolves startJob =>
            if truthy (response_status startJob)
            then pollOutcome w st fuel 0 0
            else Unconfirmed startJob
        end
    end.

(** The run once the upload has settled well, and once the creation has
    answered with a status. *)
Definition uploaded (w : World) (r : Revision) (st : ComponentState)
  (f : File) : Run :=
  {| component := submitting st; trace := uploadPhase w r st f |}.

Definition created (w : World) (r : Revision) (st : ComponentState)
  (f : File) : Run :=
  extend (uploaded w r st f)
    [ Ev_startMedicalScribeJob (jobParamsOf w st f);
      Ev_updateProgressBar (createdNotification r st) ].

(** The run that goes with each outcome. *)
Definition runOf (w : World) (r : Revision) (st : ComponentState) (f : File)
  (o : Outcome) : Completion unit * Run :=
  match o with
  | Invalid =>
      (Normal tt,
       {| component :=
            set_isSubmitting false
              (set_formError
                 (verify_message (verifyJobParams w (jobParamsOf w st f)))
                 (submitting st));
          trace := [ Ev_preventDefault;
                     Ev_setIsSubmitting true;
                     Ev_setFormError "";
                     Ev_setFormError
                       (verify_message
                          (verifyJobParams w (jobParamsOf w st f)));
                     Ev_setIsSubmitting false ] |})
  | UploadFailed e =>
      (Throw e,
       failed (uploaded w r st f) (uploadFailedNotification r st f e))
  | CreateFailed e =>
      (Throw e,
       failed (extend (uploaded w r st f)
                 [Ev_startMedicalScribeJob (jobParamsOf w st f)])
              (submitFailedNotification r st e))
  | Unconfirmed startJob =>
      (Normal tt,
       finish (extend (uploaded w r st f)
                 [ Ev_startMedicalScribeJob (jobParamsOf w st f);
                   Ev_updateProgressBar
                     (unconfirmedNotification w r st startJob) ]))
  | Polling k =>
      (Pending, extend (created w r st f) (pollPhase r st k (pollStart r)))
  | PollFailed k e =>
      (Throw e,
       failed (extend (created w r st f)
                 (pollPhase r st k (pollStart r)
                  ++ [ Ev_sleep 5000; Ev_getHealthScribeJob (jobName st) ]))
              (submitFailedNotification r st e))
  | Completed k =>
      (Normal tt,
       finish (extend (created w r st f)
                 (pollPhase r st k (pollStart r)
                  ++ completedPhase r st (advanceN r k (pollStart r)))))
  end.

(** The run of the loop alone, from the run [s] it starts in. *)
Definition loopOf (r : Revision) (st : ComponentState) (s : Run) (o : Outcome)
  : Completion unit * Run :=
  match o with
  | Polling k => (Pending, extend s (pollPhase r st k (pollStart r)))
  | PollFailed k e =>
      (Throw e,
       extend s (pollPhase r st k (pollStart r)
                 ++ [ Ev_sleep 5000; Ev_getHealthScribeJob (jobName st) ]))
  | Completed k =>
      (Normal tt,
       extend s (pollPhase r st k (pollStart r)
                 ++ completedPhase r st (advanceN r k (pollStart r))))
  | _ => (Pending, s)
  end.

(** The outcomes the loop can have. *)
Definition ofLoop (o : Outcome) : bool :=
  match o with
  | Polling _ | PollFailed _ _ | Completed _ => true
  | _ => false
  end.

(** The values of [k] polling notifications in a row. *)
Fixpoint pollValues (r : Revision) (k : nat) (progress : Z) : list Z :=
  match k with
  | O => []
  | S k' => progress :: pollValues r k' (advance r progress)
  end.

(** The notifications of the upload phase. *)
Definition uploadNotes (w : World) (r : Revision) (st : ComponentState)
  (f : File) : list ProgressNotification :=
  initialNotification r
  :: map (uploadNotification r (jobName st))
         (uploadProgress w (uploadParamsOf w f)).

(** The notifications that go with each outcome. *)
Definition notesOf (w : World) (r : Revision) (st : ComponentState)
  (f : File) (o : Outcome) : list ProgressNotification :=
  match o with
  | Invalid => []
  | UploadFailed e =>
      uploadNotes w r st f ++ [uploadFailedNotification r st f e]
  | CreateFailed e =>
      uploadNotes w r st f ++ [submitFailedNotification r st e]
  | Unconfirmed startJob =>
      uploadNotes w r st f ++ [unconfirmedNotification w r st startJob]
  | Polling k =>
      uploadNotes w r st f
      ++ createdNotification r st
         :: map (pollNotification r st) (pollValues r k (pollStart r))
  | PollFailed k e =>
      uploadNotes w r st f
      ++ createdNotification r st
         :: map (pollNotification r st) (pollValues r k (pollStart r))
         ++ [submitFailedNotification r st e]
  | Completed k =>
      uploadNotes w r st f
      ++ createdNotification r st
         :: map (pollNotification r st) (pollValues r (S k) (pollStart r))
         ++ [completedNotification r st]
  end.

(** More observations on a trace. *)
Definition uploadCalls (t : list Event) : list UploadParams :=
  flat_map (fun e => match e with Ev_multipartUpload p => [p] | _ => [] end) t.


(** The values [setIsSubmitting] was called with, in order. *)
Definition flags (t : list Event) : list bool :=
  flat_map (fun e => match e with Ev_setIsSubmitting b => [b] | _ => [] end) t.

(** The notifications of the loop are the ones that say
    [Transcribing audio...]. *)
Definition isPolling (n : ProgressNotification) : bool :=
  match additionalInfo n with
  | Some s => (s =? "Transcribing audio...")%string
  | None => false
  end.

(** The value the [i]-th iteration of the loop posts: the start, raised by
    the step [i] times, held at the cap. *)
Definition pollValueAt (r : Revision) (i : nat) : Z :=
  Z.min (pollStart r + Z.of_nat i * pollStep r) (pollCap r).

(** The submit button of the form: a spinner, disabled, while submitting;
    otherwise [disabled={!filePath}]. *)
Definition submitDisabled (st : ComponentState) : bool :=
  if isSubmitting st
  then true
  else match filePath st with
       | Some _ => false
       | None => true
       end.

(** The effect [setFilePath(recordedAudio)] that follows the recorder. *)
Definition recordedAudioEffect (recordedAudio : option File)
  (c : ComponentState) : ComponentState :=
  set_filePath recordedAudio c.

(** ** Sample worlds *)

Module Sample.

Definition recording : File := {| name := "visit.wav"; type := "audio/wav" |}.

Definition page : ComponentState :=
  {| isSubmitting := false;
     formError := "";
     jobName := "session-abc";
     audioSelection := "speakerPartitioning";
     audioDetails := {| maxSpeakers := 2; channel1 := "CLINICIAN" |};
     filePath := Some recording |}.

Definition withStatus (status : string) : option Response :=
  Some {| data :=
            Some {| MedicalScribeJob :=
                      Some {| MedicalScribeJobStatus := Some status |} |} |}.

Definition withoutStatus : option Response :=
  Some {| data := Some {| MedicalScribeJob := None |} |}.

Definition halfway : Progress :=
  {| loaded := Some 5242880; part := Some 1; total := Some 10485760 |}.

Definition finished : Progress :=
  {| loaded := Some 10485760; part := Some 2; total := Some 10485760 |}.

Definition accept (p : JobParams) : VerifyResult :=
  {| verified := true; verify_message := "" |}.

Definition reject (p : JobParams) : VerifyResult :=
  {| verified := false; verify_message := "Job name is required" |}.

(** Upload succeeds, creation answers SUBMITTED, the first status query
    IN_PROGRESS and the later ones COMPLETED. *)
Definition completes : World :=
  {| outputBucket := "out-bucket";
     getUploadMetadata := {| Bucket := "in-bucket"; Key := "uploads/u1" |};
     healthScribeServiceRole := "arn:aws:iam::1:role/scribe";
     verifyJobParams := accept;
     uploadProgress := fun _ => [halfway; finished];
     uploadSettles := fun _ => Resolves tt;
     startJobSettles := fun _ => Resolves (withStatus "SUBMITTED");
     getJobSettles :=
       fun n _ =>
         match n with
         | O => Resolves (withStatus "IN_PROGRESS")
         | S _ => Resolves (withStatus "COMPLETED")
         end;
     JSON_stringify := fun _ => "{}" |}.

(** The upload reports one part and settles as [u]. *)
Definition withUpload (u : Settled unit) (w : World) : World :=
  {| outputBucket := outputBucket w;
     getUploadMetadata := getUploadMetadata w;
     healthScribeServiceRole := healthScribeServiceRole w;
     verifyJobParams := verifyJobParams w;
     uploadProgress := fun _ => [halfway];
     uploadSettles := fun _ => u;
     startJobSettles := startJobSettles w;
     getJobSettles := getJobSettles w;
     JSON_stringify := JSON_stringify w |}.

Definition withStart (s : Settled (option Response)) (w : World) : World :=
  {| outputBucket := outputBucket w;
     getUploadMetadata := getUploadMetadata w;
     healthScribeServiceRole := healthScribeServiceRole w;
     verifyJobParams := verifyJobParams w;
     uploadProgress := uploadProgress w;
     uploadSettles := uploadSettles w;
     startJobSettles := fun _ => s;
     getJobSettles := getJobSettles w;
     JSON_stringify := JSON_stringify w |}.

Definition withPolls (g : nat -> Settled (option Response)) (w : World)
  : World :=
  {| outputBucket := outputBucket w;
     getUploadMetadata := getUploadMetadata w;
     healthScribeServiceRole := healthScribeServiceRole w;
     verifyJobParams := verifyJobParams w;
     uploadProgress := uploadProgress w;
     uploadSettles := uploadSettles w;
     startJobSettles := startJobSettles w;
     getJobSettles := fun n _ => g n;
     JSON_stringify := JSON_stringify w |}.

Definition withVerify (v : JobParams -> VerifyResult) (w : World) : World :=
  {| outputBucket := outputBucket w;
     getUploadMetadata := getUploadMetadata w;
     healthScribeServiceRole := healthScribeServiceRole w;
     verifyJobParams := v;
     uploadProgress := uploadProgress w;
     uploadSettles := uploadSettles w;
     startJobSettles := startJobSettles w;
     getJobSettles := getJobSettles w;
     JSON_stringify := JSON_stringify w |}.

Definition networkDown : Error := {| message := "Network Failure" |}.

(** The upload rejects. *)
Definition uploadFails : World := withUpload (Rejects networkDown) completes.

(** The job is created and the remote side reports FAILED for ever. *)
Definition jobFails : World :=
  withPolls (fun _ => Resolves (withStatus "FAILED")) completes.

(** The creation call answers without a status. *)
Definition unconfirmed : World := withStart (Resolves withoutStatus) completes.

(** The creation call throws. *)
Definition createFails : World := withStart (Rejects networkDown) completes.

(** The second status query throws. *)
Definition pollFails : World :=
  withPolls (fun n => match n with
                      | O => Resolves (withStatus "IN_PROGRESS")
                      | S _ => Rejects networkDown
                      end) completes.

End Sample.

(** ** More sample worlds *)

Module Cases.

(** The validator rejects the parameters. *)
Definition invalid : World := Sample.withVerify Sample.reject Sample.completes.


(** The first [k] status queries answer IN_PROGRESS, the later ones
    throw. *)
Definition failsAfter (k : nat) : World :=
  Sample.withPolls
    (fun n => if (n <? k)%nat
              then Resolves (Sample.withStatus "IN_PROGRESS")
              else Rejects Sample.networkDown)
    Sample.completes.

(** A page whose last submission left a form error. *)
Definition stalePage : ComponentState :=
  set_formError "Job name is required" Sample.page.

End Cases.

(** ** How the phases of the handler run *)

Lemma extend_nil s : extend s [] = s.
Proof.
  destruct s as [c t]. unfold extend. cbn. now rewrite app_nil_r.
Qed.

Lemma extend_extend s a b : extend (extend s a) b = extend s (a ++ b).
Proof.
  unfold extend. cbn. now rewrite app_assoc.
Qed.

Lemma component_extend s es : component (extend s es) = component s.
Proof. reflexivity. Qed.

Lemma trace_extend s es : trace (extend s es) = (trace s ++ es)%list.
Proof. reflexivity. Qed.

Lemma emit_run e s : emit e s = (Normal tt, extend s [e]).
Proof. reflexivity. Qed.

Lemma bind_run {A B} (m : M A) (k : A -> M B) s a s' :
  m s = (Normal a, s') -> bind m k s = k a s'.
Proof.
  intros H. unfold bind. now rewrite H.
Qed.

Section Runs.

Variable w : World.
Variable r : Revision.
Variable st : ComponentState.


Lemma forEach_s3UploadCallback l s :
  forEach (s3UploadCallback r st) l s
  = (Normal tt,
     extend s (map (fun q => Ev_updateProgressBar
                               (uploadNotification r (jobName st) q)) l)).
Proof.
  revert s. induction l as [|q l IH]; intros s.
  - cbn [forEach map]. now rewrite extend_nil.
  - cbn [forEach map].
    erewrite bind_run by (unfold s3UploadCallback, updateProgressBar; apply emit_run).
    rewrite IH, extend_extend. reflexivity.
Qed.

Lemma multipartUpload_run p s :
  multipartUpload w p (s3UploadCallback r st) s
  = (match uploadSettles w p with
     | Resolves _ => Normal tt
     | Rejects e => Throw e
     end,
     extend s (Ev_multipartUpload p
               :: map (fun q => Ev_updateProgressBar
                                  (uploadNotification r (jobName st) q))
                      (uploadProgress w p))).
Proof.
  unfold multipartUpload.
  erewrite bind_run by apply emit_run.
  erewrite bind_run by apply forEach_s3UploadCallback.
  rewrite extend_extend. cbn [app].
  destruct (uploadSettles w p) as [[]|e]; reflexivity.
Qed.

Lemma uploadAudio_run f loc s :
  let p := {| upload_location := loc; Body := f; ContentType := type f |} in
  let es := Ev_multipartUpload p
            :: map (fun q => Ev_updateProgressBar
                               (uploadNotification r (jobName st) q))
                   (uploadProgress w p) in
  uploadAudio w r st f loc s
  = match uploadSettles w p with
    | Resolves _ => (Normal tt, extend s es)
    | Rejects e =>
        (Throw e,
         {| component := set_isSubmitting false (component s);
            trace := trace s ++ es
                     ++ [Ev_updateProgressBar (uploadFailedNotification r st f e);
                         Ev_setIsSubmitting false] |})
    end.
Proof.
  intros p es. unfold uploadAudio, try_catch.
  rewrite multipartUpload_run. fold p. fold es.
  destruct (uploadSettles w p) as [[]|e]; [reflexivity|].
  cbn. rewrite <- !app_assoc. reflexivity.
Qed.

(** One iteration of the loop. *)
Lemma pollLoop_step fuel n progress s :
  pollLoop w r st (S fuel) n progress s
  = match getJobSettles w n (jobName st) with
    | Rejects e =>
        (Throw e,
         extend s [Ev_sleep 5000; Ev_getHealthScribeJob (jobName st)])
    | Resolves g =>
        if strict_eq (response_status g) "COMPLETED"
        then (Normal tt, extend s (completedPhase r st progress))
        else pollLoop w r st fuel (S n) (advance r progress)
               (extend s [ Ev_sleep 5000;
                           Ev_getHealthScribeJob (jobName st);
                           Ev_updateProgressBar
                             (pollNotification r st progress) ])
    end.
Proof.
  cbn [pollLoop].
  unfold sleep at 1.
  erewrite bind_run by apply emit_run.
  unfold getHealthScribeJob, bind at 1, bind at 1.
  rewrite emit_run, extend_extend. cbn [app].
  destruct (getJobSettles w n (jobName st)) as [g|e]; [|reflexivity].
  cbn [await ret].
  unfold updateProgressBar at 1.
  erewrite bind_run by apply emit_run.
  rewrite extend_extend. cbn [app].
  destruct (strict_eq (response_status g) "COMPLETED"); [|reflexivity].
  unfold updateProgressBar, sleep, navigate.
  do 2 (erewrite bind_run by apply emit_run).
  rewrite emit_run, !extend_extend. reflexivity.
Qed.

(** The loop leaves the component state alone. *)
Lemma pollLoop_component fuel : forall n progress s,
  component (snd (pollLoop w r st fuel n progress s)) = component s.
Proof.
  induction fuel as [|fuel IH]; intros n progress s; [reflexivity|].
  rewrite pollLoop_step.
  destruct (getJobSettles w n (jobName st)) as [g|e]; [|reflexivity].
  destruct (strict_eq (response_status g) "COMPLETED"); [reflexivity|].
  rewrite IH. reflexivity.
Qed.

(** A run of the loop that has come to an end does not depend on the
    budget: a larger one gives the same run. *)
Lemma pollLoop_budget fuel : forall n progress s c s',
  pollLoop w r st fuel n progress s = (c, s') ->
  c <> Pending ->
  forall more,
    pollLoop w r st (fuel + more) n progress s = (c, s').
Proof.
  induction fuel as [|fuel IH]; intros n progress s c s' Hrun Hc more.
  - cbn in Hrun. injection Hrun as <- _. contradiction.
  - change (S fuel + more)%nat with (S (fuel + more)).
    rewrite pollLoop_step in Hrun |- *.
    destruct (getJobSettles w n (jobName st)) as [g|e]; [|exact Hrun].
    destruct (strict_eq (response_status g) "COMPLETED"); [exact Hrun|].
    now apply IH.
Qed.

(** An iteration whose query resolves with a status other than COMPLETED
    goes round again. *)
Lemma pollLoop_again fuel n progress s g :
  getJobSettles w n (jobName st) = Resolves g ->
  strict_eq (response_status g) "COMPLETED" = false ->
  pollLoop w r st (S fuel) n progress s
  = pollLoop w r st fuel (S n) (advance r progress)
      (extend s [ Ev_sleep 5000;
                  Ev_getHealthScribeJob (jobName st);
                  Ev_updateProgressBar (pollNotification r st progress) ]).
Proof.
  intros Hg Hs. now rewrite pollLoop_step, Hg, Hs.
Qed.

(** An iteration whose query resolves with COMPLETED leaves the loop. *)
Lemma pollLoop_done fuel n progress s g :
  getJobSettles w n (jobName st) = Resolves g ->
  strict_eq (response_status g) "COMPLETED" = true ->
  pollLoop w r st (S fuel) n progress s
  = (Normal tt, extend s (completedPhase r st progress)).
Proof.
  intros Hg Hs. now rewrite pollLoop_step, Hg, Hs.
Qed.

(** An iteration whose query rejects throws out of the loop. *)
Lemma pollLoop_throws fuel n progress s e :
  getJobSettles w n (jobName st) = Rejects e ->
  pollLoop w r st (S fuel) n progress s
  = (Throw e, extend s [Ev_sleep 5000; Ev_getHealthScribeJob (jobName st)]).
Proof.
  intros Hg. now rewrite pollLoop_step, Hg.
Qed.

(** While no query sees COMPLETED the loop is still waiting, whatever the
    budget. *)
Lemma pollLoop_waiting fuel : forall n progress s,
  (forall k, (n <= k < n + fuel)%nat ->
             exists g, getJobSettles w k (jobName st) = Resolves g
                       /\ strict_eq (response_status g) "COMPLETED" = false) ->
  pollLoop w r st fuel n progress s
  = (Pending, extend s (pollPhase r st fuel progress)).
Proof.
  induction fuel as [|fuel IH]; intros n progress s H.
  - cbn. now rewrite extend_nil.
  - destruct (H n) as (g & Hg & Hs); [lia|].
    rewrite (pollLoop_again _ _ _ _ _ Hg Hs).
    rewrite IH by (intros k Hk; apply H; lia).
    rewrite extend_extend. reflexivity.
Qed.

(** [k] queries that do not see COMPLETED and one that does. *)
Lemma pollLoop_completes k : forall extra n progress s g,
  (forall j, (n <= j < n + k)%nat ->
             exists g', getJobSettles w j (jobName st) = Resolves g'
                        /\ strict_eq (response_status g') "COMPLETED" = false) ->
  getJobSettles w (n + k)%nat (jobName st) = Resolves g ->
  strict_eq (response_status g) "COMPLETED" = true ->
  pollLoop w r st (S k + extra) n progress s
  = (Normal tt,
     extend s (pollPhase r st k progress
               ++ completedPhase r st (advanceN r k progress))).
Proof.
  induction k as [|k IH]; intros extra n progress s g H Hg Hs.
  - rewrite Nat.add_0_r in Hg.
    apply (pollLoop_done _ _ _ _ _ Hg Hs).
  - destruct (H n) as (g' & Hg' & Hs'); [lia|].
    change (S (S k) + extra)%nat with (S (S k + extra)).
    rewrite (pollLoop_again _ _ _ _ _ Hg' Hs').
    rewrite (IH extra (S n) _ _ g).
    + rewrite extend_extend. reflexivity.
    + intros j Hj. apply H. lia.
    + now replace (S n + k)%nat with (n + S k)%nat by lia.
    + exact Hs.
Qed.

End Runs.

Section SubmitRuns.

Variable w : World.
Variable r : Revision.
Variable st : ComponentState.
Variable f : File.

Lemma catch_run {A} n e s :
  (updateProgressBar n ;; setIsSubmitting false ;; @throw A e) s
  = (Throw e, failed s n).
Proof.
  unfold failed. cbn. now rewrite <- app_assoc.
Qed.

Lemma createAndPoll_run fuel p s :
  createAndPoll w r st fuel p s
  = match startJobSettles w p with
    | Rejects e =>
        (Throw e,
         failed (extend s [Ev_startMedicalScribeJob p])
                (submitFailedNotification r st e))
    | Resolves startJob =>
        if truthy (response_status startJob)
        then
          match pollLoop w r st fuel 0%nat (pollStart r)
                  (extend s [Ev_startMedicalScribeJob p;
                             Ev_updateProgressBar (createdNotification r st)])
          with
          | (Throw e, s') => (Throw e, failed s' (submitFailedNotification r st e))
          | other => other
          end
        else
          (Normal tt,
           extend s [Ev_startMedicalScribeJob p;
                     Ev_updateProgressBar (unconfirmedNotification w r st startJob)])
    end.
Proof.
  unfold createAndPoll, try_catch, startMedicalScribeJob.
  unfold bind at 1. unfold bind at 1. rewrite emit_run.
  destruct (startJobSettles w p) as [startJob|e]; cbn [await ret throw].
  - destruct (truthy (response_status startJob)).
    + unfold updateProgressBar at 1.
      erewrite bind_run by apply emit_run.
      rewrite extend_extend. cbn [app].
      destruct (pollLoop _ _ _ _ _ _ _) as [[[]|e|] s'];
        [reflexivity|apply catch_run|reflexivity].
    + unfold updateProgressBar. rewrite emit_run, extend_extend. reflexivity.
  - apply catch_run.
Qed.

Lemma submitJob_no_file fuel :
  filePath st = None ->
  runSubmit w r st fuel
  = (Throw noFileError,
     {| component := submitting st;
        trace := [Ev_preventDefault; Ev_setIsSubmitting true;
                  Ev_setFormError ""] |}).
Proof.
  intros H. unfold runSubmit, submitJob. rewrite H. reflexivity.
Qed.

Lemma submitJob_invalid fuel :
  filePath st = Some f ->
  verified (verifyJobParams w (jobParamsOf w st f)) = false ->
  runSubmit w r st fuel
  = (Normal tt,
     {| component :=
          set_isSubmitting false
            (set_formError (verify_message (verifyJobParams w (jobParamsOf w st f)))
                           (submitting st));
        trace := [Ev_preventDefault; Ev_setIsSubmitting true;
                  Ev_setFormError "";
                  Ev_setFormError
                    (verify_message (verifyJobParams w (jobParamsOf w st f)));
                  Ev_setIsSubmitting false] |}).
Proof.
  intros Hf Hv. unfold runSubmit, submitJob. rewrite Hf.
  fold (jobParamsOf w st f). rewrite Hv. reflexivity.
Qed.

Lemma submitJob_valid fuel :
  filePath st = Some f ->
  verified (verifyJobParams w (jobParamsOf w st f)) = true ->
  runSubmit w r st fuel
  = match uploadSettles w (uploadParamsOf w f) with
    | Rejects e =>
        (Throw e,
         failed {| component := submitting st; trace := uploadPhase w r st f |}
                (uploadFailedNotification r st f e))
    | Resolves _ =>
        match createAndPoll w r st fuel (jobParamsOf w st f)
                {| component := submitting st; trace := uploadPhase w r st f |}
        with
        | (Normal _, s') => (Normal tt, finish s')
        | other => other
        end
    end.
Proof.
  intros Hf Hv. unfold runSubmit, submitJob. rewrite Hf.
  fold (jobParamsOf w st f). rewrite Hv. cbn [negb].
  unfold preventDefault, setIsSubmitting, setFormError, scrollTo,
    updateProgressBar.
  unfold bind at 1. rewrite emit_run.
  unfold bind at 1. unfold bind at 1. rewrite emit_run.
  unfold modify at 1.
  unfold bind at 1. unfold bind at 1. rewrite emit_run.
  unfold modify at 1.
  unfold bind at 1. rewrite emit_run.
  unfold bind at 1. rewrite emit_run.
  unfold bind at 1. rewrite uploadAudio_run.
  fold (uploadParamsOf w f).
  destruct (uploadSettles w (uploadParamsOf w f)) as [[]|e].
  - unfold bind.
    match goal with
    | |- match createAndPoll _ _ _ _ _ ?s1 with _ => _ end
         = match createAndPoll _ _ _ _ _ ?s2 with _ => _ end =>
        replace s1 with s2 by reflexivity
    end.
    destruct (createAndPoll _ _ _ _ _ _) as [[[]|e|] s']; reflexivity.
  - reflexivity.
Qed.

End SubmitRuns.

(** * Properties *)

(** ** The upload progress value *)

Lemma or_default_nonzero x d : d <> 0 -> or_default x d <> 0.
Proof.
  intros Hd. unfold or_default.
  destruct x as [v|]; [|exact Hd].
  destruct (Z.eqb_spec v 0); [exact Hd|assumption].
Qed.

(** *** Rounding to the nearest double *)

Section Doubles.

Local Open Scope Q_scope.

Lemma pow2_pos k : 0 < pow2 k.
Proof. apply Qpower_0_lt. reflexivity. Qed.

Lemma pow2_add a b : pow2 (a + b) == pow2 a * pow2 b.
Proof. apply Qpower_plus. discriminate. Qed.

Lemma pow2_le a b : (a <= b)%Z -> pow2 a <= pow2 b.
Proof. intros H. apply Qpower_le_compat_l; [exact H|discriminate]. Qed.

Lemma pow2_lt_inv a b : pow2 a < pow2 b -> (a < b)%Z.
Proof. intros H. apply (Qpower_lt_compat_l_inv 2); [exact H|reflexivity]. Qed.

Lemma pow2_Z n : (0 <= n)%Z -> pow2 n == inject_Z (2 ^ n).
Proof. intros H. symmetry. apply (Zpower_Qpower 2 n H). Qed.

Lemma div_pow2 q k : q / pow2 k == q * pow2 (- k).
Proof. unfold Qdiv, pow2. now rewrite Qpower_opp. Qed.

Lemma pow2_cancel k : pow2 (- k) * pow2 k == 1.
Proof. rewrite <- pow2_add. now replace (- k + k)%Z with 0%Z by lia. Qed.

Lemma inject_Z_le_iff a b : inject_Z a <= inject_Z b <-> (a <= b)%Z.
Proof. now rewrite <- Zle_Qle. Qed.

Lemma inject_Z_lt_iff a b : inject_Z a < inject_Z b <-> (a < b)%Z.
Proof. now rewrite <- Zlt_Qlt. Qed.

(** [ilog2] is the binary exponent. *)
Lemma ilog2_spec q : 0 < q -> pow2 (ilog2 q) <= q < pow2 (ilog2 q + 1).
Proof.
  intros Hq. destruct q as [n d].
  assert (0 < n)%Z as Hn.
  { unfold Qlt in Hq. cbn in Hq. lia. }
  set (a := Z.log2 n). set (b := Z.log2 (Z.pos d)).
  destruct (Z.log2_spec n Hn) as [Ha1 Ha2]. fold a in Ha1, Ha2.
  destruct (Z.log2_spec (Z.pos d) (Pos2Z.is_pos d)) as [Hb1 Hb2].
  fold b in Hb1, Hb2.
  assert (0 <= a)%Z as Ha0 by apply Z.log2_nonneg.
  assert (0 <= b)%Z as Hb0 by apply Z.log2_nonneg.
  assert (0 < inject_Z (Z.pos d)) as Hd by reflexivity.
  assert (n # d < pow2 (a - b + 1)) as Hupper.
  { rewrite Qmake_Qdiv. apply Qlt_shift_div_r; [exact Hd|].
    apply Qlt_le_trans with (pow2 (a + 1)).
    - rewrite pow2_Z by lia. apply inject_Z_lt_iff.
      now rewrite <- Z.add_1_r in Ha2.
    - replace (a + 1)%Z with ((a - b + 1) + b)%Z by lia.
      rewrite pow2_add. apply Qmult_le_l; [apply pow2_pos|].
      rewrite pow2_Z by lia. now apply inject_Z_le_iff. }
  assert (pow2 (a - b - 1) <= n # d) as Hlower.
  { rewrite Qmake_Qdiv. apply Qle_shift_div_l; [exact Hd|].
    apply Qle_trans with (pow2 a).
    - replace a with ((a - b - 1) + (b + 1))%Z at 2 by lia.
      rewrite pow2_add. apply Qmult_le_l; [apply pow2_pos|].
      rewrite pow2_Z by lia. apply inject_Z_le_iff.
      rewrite <- Z.add_1_r in Hb2. lia.
    - rewrite pow2_Z by lia. now apply inject_Z_le_iff. }
  unfold ilog2. cbn [Qnum Qden]. fold a b.
  destruct (Qle_bool (pow2 (a - b)) (n # d)) eqn:Hc.
  - apply Qle_bool_iff in Hc. split; assumption.
  - assert (~ pow2 (a - b) <= n # d) as Hc'
      by (intros H; apply Qle_bool_iff in H; congruence).
    apply Qnot_le_lt in Hc'.
    replace (a - b - 1 + 1)%Z with (a - b)%Z by lia. split; assumption.
Qed.

(** Rounding to the nearest integer, ties to even. *)
Lemma rne_floor x : (Qfloor x <= rne x <= Qfloor x + 1)%Z.
Proof.
  unfold rne. destruct (Qcompare _ _); [destruct (Z.even _)|..]; lia.
Qed.

Lemma rne_le x n : x <= inject_Z n -> (rne x <= n)%Z.
Proof.
  intros H.
  assert (Qfloor x <= n)%Z as Hf.
  { rewrite <- (Qfloor_Z n). now apply Qfloor_resp_le. }
  destruct (Z.eq_dec (Qfloor x) n) as [He|Hne].
  - assert (x - inject_Z (Qfloor x) < 1 # 2) as Hlt.
    { rewrite He. apply Qle_lt_trans with 0; [|reflexivity].
      apply (Qplus_le_l _ _ (inject_Z n)). ring_simplify. exact H. }
    unfold rne. rewrite (proj1 (Qlt_alt _ _) Hlt). lia.
  - pose proof (rne_floor x). lia.
Qed.

Lemma rne_ge x n : inject_Z n <= x -> (n <= rne x)%Z.
Proof.
  intros H.
  assert (n <= Qfloor x)%Z as Hf.
  { rewrite <- (Qfloor_Z n). now apply Qfloor_resp_le. }
  pose proof (rne_floor x). lia.
Qed.

Lemma compare_half r :
  match Qcompare r (1 # 2) with
  | Lt => r < 1 # 2
  | Eq => r == 1 # 2
  | Gt => 1 # 2 < r
  end.
Proof.
  destruct (Qcompare r (1 # 2)) eqn:C.
  - now apply Qeq_alt.
  - now apply Qlt_alt.
  - now apply Qgt_alt.
Qed.

Lemma rne_mono x y : x <= y -> (rne x <= rne y)%Z.
Proof.
  intros H.
  pose proof (Qfloor_resp_le _ _ H) as Hf.
  pose proof (rne_floor x) as Hx. pose proof (rne_floor y) as Hy.
  destruct (Z.eq_dec (Qfloor x) (Qfloor y)) as [He|Hne]; [|lia].
  assert (x - inject_Z (Qfloor x) <= y - inject_Z (Qfloor y)) as Hr.
  { rewrite He. apply Qplus_le_l. exact H. }
  unfold rne.
  set (rx := x - inject_Z (Qfloor x)) in *.
  set (ry := y - inject_Z (Qfloor y)) in *.
  pose proof (compare_half rx) as Cx. pose proof (compare_half ry) as Cy.
  clearbody rx ry. rewrite <- He.
  destruct (Qcompare rx (1 # 2)); destruct (Qcompare ry (1 # 2));
    try (destruct (Z.even (Qfloor x))); try lia; exfalso; lra.
Qed.

(** Rounding a positive rational to 53 significant bits. *)
Lemma scaled_bounds q :
  0 < q ->
  pow2 52 <= q / pow2 (ilog2 q - 52) < pow2 53.
Proof.
  intros Hq. destruct (ilog2_spec q Hq) as [Hlo Hhi].
  rewrite div_pow2. split.
  - replace 52%Z with (ilog2 q + - (ilog2 q - 52))%Z at 1 by lia.
    rewrite pow2_add. apply Qmult_le_compat_r; [exact Hlo|].
    apply Qlt_le_weak, pow2_pos.
  - replace 53%Z with ((ilog2 q + 1) + - (ilog2 q - 52))%Z by lia.
    rewrite pow2_add. apply Qmult_lt_compat_r; [apply pow2_pos|exact Hhi].
Qed.

Lemma roundPos_lower q : 0 < q -> pow2 (ilog2 q) <= roundPos q.
Proof.
  intros Hq. destruct (scaled_bounds q Hq) as [Hlo _].
  unfold roundPos. cbv zeta.
  assert (2 ^ 52 <= rne (q / pow2 (ilog2 q - 52)))%Z as Hm.
  { apply rne_ge. rewrite <- pow2_Z by lia. exact Hlo. }
  apply inject_Z_le_iff in Hm. rewrite <- pow2_Z in Hm by lia.
  replace (ilog2 q) with (52 + (ilog2 q - 52))%Z at 1 by lia.
  rewrite pow2_add. apply Qmult_le_compat_r; [exact Hm|].
  apply Qlt_le_weak, pow2_pos.
Qed.

Lemma roundPos_upper q : 0 < q -> roundPos q <= pow2 (ilog2 q + 1).
Proof.
  intros Hq. destruct (scaled_bounds q Hq) as [_ Hhi].
  unfold roundPos. cbv zeta.
  assert (rne (q / pow2 (ilog2 q - 52)) <= 2 ^ 53)%Z as Hm.
  { apply rne_le. rewrite <- pow2_Z by lia. now apply Qlt_le_weak. }
  apply inject_Z_le_iff in Hm. rewrite <- pow2_Z in Hm by lia.
  replace (ilog2 q + 1)%Z with (53 + (ilog2 q - 52))%Z by lia.
  rewrite pow2_add. apply Qmult_le_compat_r; [exact Hm|].
  apply Qlt_le_weak, pow2_pos.
Qed.

Lemma roundPos_pos q : 0 < q -> 0 < roundPos q.
Proof.
  intros Hq. apply Qlt_le_trans with (pow2 (ilog2 q)).
  - apply pow2_pos.
  - now apply roundPos_lower.
Qed.

(** An integer below [2^53] scaled by a power of two that keeps it whole. *)
Lemma scale_int c k :
  (k <= 0)%Z -> inject_Z c / pow2 k == inject_Z (c * 2 ^ (- k)).
Proof.
  intros Hk. rewrite div_pow2, inject_Z_mult, pow2_Z by lia. reflexivity.
Qed.

Lemma unscale_int c k :
  (k <= 0)%Z -> inject_Z (c * 2 ^ (- k)) * pow2 k == inject_Z c.
Proof.
  intros Hk. rewrite inject_Z_mult, <- pow2_Z by lia.
  rewrite <- Qmult_assoc, pow2_cancel. ring.
Qed.

Lemma ilog2_below q c :
  0 < q -> q <= inject_Z c -> (c < 2 ^ 53)%Z -> (ilog2 q - 52 <= 0)%Z.
Proof.
  intros Hq Hc Hb. destruct (ilog2_spec q Hq) as [Hlo _].
  assert (pow2 (ilog2 q) < pow2 53) as H.
  { apply Qle_lt_trans with q; [exact Hlo|].
    apply Qle_lt_trans with (inject_Z c); [exact Hc|].
    rewrite pow2_Z by lia. now apply inject_Z_lt_iff. }
  apply pow2_lt_inv in H. lia.
Qed.

Lemma roundPos_le_int q c :
  0 < q -> q <= inject_Z c -> (c < 2 ^ 53)%Z -> roundPos q <= inject_Z c.
Proof.
  intros Hq Hc Hb.
  pose proof (ilog2_below q c Hq Hc Hb) as Hk.
  unfold roundPos. cbv zeta. set (k := (ilog2 q - 52)%Z) in *.
  assert (rne (q / pow2 k) <= c * 2 ^ (- k))%Z as Hm.
  { apply rne_le. rewrite <- scale_int by exact Hk.
    unfold Qdiv. apply Qmult_le_compat_r; [exact Hc|].
    apply Qlt_le_weak, Qinv_lt_0_compat, pow2_pos. }
  apply inject_Z_le_iff in Hm.
  rewrite <- (unscale_int c k Hk).
  apply Qmult_le_compat_r; [exact Hm|]. apply Qlt_le_weak, pow2_pos.
Qed.

Lemma roundPos_ge_int q c :
  0 < q -> inject_Z c <= q -> (c < 2 ^ 53)%Z -> inject_Z c <= roundPos q.
Proof.
  intros Hq Hc Hb.
  destruct (Z_le_gt_dec (ilog2 q - 52) 0) as [Hk|Hk].
  - unfold roundPos. cbv zeta. set (k := (ilog2 q - 52)%Z) in *.
    assert (c * 2 ^ (- k) <= rne (q / pow2 k))%Z as Hm.
    { apply rne_ge. rewrite <- scale_int by exact Hk.
      unfold Qdiv. apply Qmult_le_compat_r; [exact Hc|].
      apply Qlt_le_weak, Qinv_lt_0_compat, pow2_pos. }
    apply inject_Z_le_iff in Hm.
    rewrite <- (unscale_int c k Hk) at 1.
    apply Qmult_le_compat_r; [exact Hm|]. apply Qlt_le_weak, pow2_pos.
  - apply Qle_trans with (pow2 (ilog2 q)); [|now apply roundPos_lower].
    apply Qle_trans with (pow2 53); [|apply pow2_le; lia].
    rewrite pow2_Z by lia. apply inject_Z_le_iff. lia.
Qed.

Lemma ilog2_mono a b : 0 < a -> a <= b -> (ilog2 a <= ilog2 b)%Z.
Proof.
  intros Ha Hab.
  assert (0 < b) as Hb by (apply Qlt_le_trans with a; assumption).
  destruct (ilog2_spec a Ha) as [Hlo _].
  destruct (ilog2_spec b Hb) as [_ Hhi].
  assert (pow2 (ilog2 a) < pow2 (ilog2 b + 1)) as H.
  { apply Qle_lt_trans with a; [exact Hlo|].
    apply Qle_lt_trans with b; assumption. }
  apply pow2_lt_inv in H. lia.
Qed.

Lemma roundPos_mono a b : 0 < a -> a <= b -> roundPos a <= roundPos b.
Proof.
  intros Ha Hab.
  assert (0 < b) as Hb by (apply Qlt_le_trans with a; assumption).
  pose proof (ilog2_mono a b Ha Hab) as He.
  destruct (Z.eq_dec (ilog2 a) (ilog2 b)) as [Heq|Hne].
  - unfold roundPos. cbv zeta. rewrite Heq.
    apply Qmult_le_compat_r; [|apply Qlt_le_weak, pow2_pos].
    apply inject_Z_le_iff. apply rne_mono.
    unfold Qdiv. apply Qmult_le_compat_r; [exact Hab|].
    apply Qlt_le_weak, Qinv_lt_0_compat, pow2_pos.
  - apply Qle_trans with (pow2 (ilog2 a + 1)); [now apply roundPos_upper|].
    apply Qle_trans with (pow2 (ilog2 b)); [apply pow2_le; lia|].
    now apply roundPos_lower.
Qed.

(** Rounding as the arithmetic of the code does it. *)
Lemma compare_zero q :
  match Qcompare q 0 with
  | Lt => q < 0
  | Eq => q == 0
  | Gt => 0 < q
  end.
Proof.
  destruct (Qcompare q 0) eqn:C.
  - now apply Qeq_alt.
  - now apply Qlt_alt.
  - now apply Qgt_alt.
Qed.

Lemma round64_nonneg q : 0 <= q -> 0 <= round64 q.
Proof.
  intros Hq. unfold round64. pose proof (compare_zero q) as C.
  destruct (Qcompare q 0).
  - apply Qle_refl.
  - exfalso. lra.
  - apply Qlt_le_weak. now apply roundPos_pos.
Qed.

Lemma round64_le_int q c :
  0 <= q -> q <= inject_Z c -> (c < 2 ^ 53)%Z -> round64 q <= inject_Z c.
Proof.
  intros Hq Hc Hb. unfold round64. pose proof (compare_zero q) as C.
  destruct (Qcompare q 0).
  - apply Qle_trans with q; assumption.
  - exfalso. lra.
  - now apply roundPos_le_int.
Qed.

Lemma round64_ge_int q c :
  (0 < c)%Z -> inject_Z c <= q -> (c < 2 ^ 53)%Z -> inject_Z c <= round64 q.
Proof.
  intros Hpos Hc Hb.
  assert (0 < q) as Hq.
  { apply Qlt_le_trans with (inject_Z c); [|exact Hc].
    now apply (inject_Z_lt_iff 0 c). }
  unfold round64. pose proof (compare_zero q) as C.
  destruct (Qcompare q 0); [exfalso; lra..|].
  now apply roundPos_ge_int.
Qed.

Lemma round64_mono a b : 0 <= a -> a <= b -> round64 a <= round64 b.
Proof.
  intros Ha Hab.
  assert (0 <= b) as Hb by (apply Qle_trans with a; assumption).
  unfold round64 at 1. pose proof (compare_zero a) as C.
  destruct (Qcompare a 0).
  - now apply round64_nonneg.
  - exfalso. lra.
  - unfold round64. pose proof (compare_zero b) as C'.
    destruct (Qcompare b 0); [exfalso; lra..|].
    now apply roundPos_mono.
Qed.

(** [Math.round] on what the arithmetic gives. *)
Lemma Math_round_mono x y : x <= y -> (Math_round x <= Math_round y)%Z.
Proof.
  intros H. unfold Math_round. apply Qfloor_resp_le.
  now apply Qplus_le_l.
Qed.

Lemma Math_round_int x c : x == inject_Z c -> Math_round x = c.
Proof.
  intros H. unfold Math_round.
  rewrite (Qfloor_comp _ (inject_Z c + (1 # 2))) by (now rewrite H).
  apply Z.le_antisymm.
  - apply Z.lt_succ_r. apply inject_Z_lt_iff.
    apply Qle_lt_trans with (inject_Z c + (1 # 2)); [apply Qfloor_le|].
    rewrite <- Z.add_1_r, inject_Z_plus. apply Qplus_lt_r. reflexivity.
  - rewrite <- (Qfloor_Z c) at 1. apply Qfloor_resp_le.
    rewrite <- (Qplus_0_r (inject_Z c)) at 1. apply Qplus_le_r. discriminate.
Qed.

End Doubles.

(** *** The value the callback posts *)

Lemma uploadValue_range p :
  0 <= or_default (loaded p) 1 <= or_default (total p) 100 ->
  0 <= uploadValue p <= 99.
Proof.
  intros [Hl Ht]. unfold uploadValue.
  set (l := or_default (loaded p) 1) in *.
  set (t := or_default (total p) 100) in *.
  assert (t <> 0) as Hnz by (apply or_default_nonzero; lia).
  assert (0 < inject_Z t)%Q as Htq by (apply (inject_Z_lt_iff 0 t); lia).
  assert (0 <= inject_Z l / inject_Z t <= 1)%Q as [Hq0 Hq1].
  { split.
    - apply Qle_shift_div_l; [exact Htq|]. rewrite Qmult_0_l.
      now apply (inject_Z_le_iff 0 l).
    - apply Qle_shift_div_r; [exact Htq|]. rewrite Qmult_1_l.
      now apply inject_Z_le_iff. }
  assert (0 <= fdiv (inject_Z l) (inject_Z t) <= 1)%Q as [Hx0 Hx1].
  { unfold fdiv. split; [now apply round64_nonneg|].
    now apply (round64_le_int _ 1). }
  assert (0 <= fmul (fdiv (inject_Z l) (inject_Z t)) 99 <= 99)%Q as [Hy0 Hy1].
  { unfold fmul. split.
    - apply round64_nonneg. lra.
    - apply (round64_le_int _ 99); [lra| |reflexivity].
      change (inject_Z 99) with (99 # 1)%Q. lra. }
  split.
  - change 0 with (Math_round 0). now apply Math_round_mono.
  - change 99 with (Math_round 99). now apply Math_round_mono.
Qed.

(** The product is rounded as a double, not as a rational: three parts of
    5 MiB out of twenty-two give [13.499999999999998], hence 13, where the
    exact [27/2] would give 14. *)
Example uploadValue_rounds_the_double :
  uploadValue {| loaded := Some 15728640;
                 part := Some 3;
                 total := Some 115343360 |} = 13
  /\ Math_round ((15728640 # 115343360) * 99)%Q = 14.
Proof. split; vm_compute; reflexivity. Qed.

(** Doubles one knows: [1 / 10] is [3602879701896397 * 2^-55], [1 / 3] is
    [6004799503160661 * 2^-54], and [0.1 * 3] is [0.30000000000000004],
    that is [5404319552844596 * 2^-54], not the double nearest to [3/10]. *)
Example fdiv_known_doubles :
  (fdiv 1 10 == 3602879701896397 # 36028797018963968)%Q
  /\ (fdiv 1 3 == 6004799503160661 # 18014398509481984)%Q
  /\ (fmul (fdiv 1 10) 3 == 5404319552844596 # 18014398509481984)%Q
  /\ (round64 (3 # 10) == 5404319552844595 # 18014398509481984)%Q.
Proof. repeat split; vm_compute; reflexivity. Qed.

(** C6, as the claim states it, fails: with [total = 0] the divisor is 100,
    and a [loaded] above 100 gives a value above 99.  Here [loaded = 1000]
    gives [round(1000 / 100 * 99) = 990]. *)
Lemma uploadValue_total_zero_exceeds_99 :
  uploadValue {| loaded := Some 1000; part := Some 1; total := Some 0 |} = 990
  /\ ~ (0 <= uploadValue {| loaded := Some 1000; part := Some 1; total := Some 0 |}
        <= 99).
Proof.
  assert (uploadValue {| loaded := Some 1000; part := Some 1; total := Some 0 |}
          = 990) as H by (vm_compute; reflexivity).
  split; [exact H|]. rewrite H. lia.
Qed.

(** C6, amended: for every progress report the value is [Math.round] of the
    double product [(loaded / total) * 99], with [loaded] replaced by 1 and
    [total] by 100 when absent or zero; the divisor is never zero, it is 100
    when [total] is 0; and the value lies in [0, 99] whenever the [loaded]
    used lies between 0 and the [total] used, which for [total = 0] means
    [loaded <= 100]. *)
Theorem uploadValue_defaults (p : Progress) :
  let l := or_default (loaded p) 1 in
  let t := or_default (total p) 100 in
  uploadValue p = Math_round (fmul (fdiv (inject_Z l) (inject_Z t)) 99)
  /\ t <> 0
  /\ (total p = Some 0 -> t = 100)
  /\ (0 <= l <= t -> 0 <= uploadValue p <= 99).
Proof.
  cbv zeta. split; [reflexivity|]. split; [|split].
  - apply or_default_nonzero. lia.
  - intros H. rewrite H. reflexivity.
  - apply uploadValue_range.
Qed.

Lemma uploadValue_defaults_witness :
  let p := {| loaded := Some 100; part := Some 3; total := Some 0 |} in
  total p = Some 0
  /\ 0 <= or_default (loaded p) 1 <= or_default (total p) 100
  /\ or_default (total p) 100 = 100
  /\ 0 <= uploadValue p <= 99.
Proof.
  cbv zeta.
  pose proof (uploadValue_defaults
                {| loaded := Some 100; part := Some 3; total := Some 0 |})
    as (_ & _ & Hzero & Hrange).
  split; [reflexivity|].
  split; [vm_compute; split; discriminate|].
  split; [apply Hzero; reflexivity|].
  apply Hrange. vm_compute. split; discriminate.
Defined.

(** ** The job parameters *)

(** C7: in a channel-identification submission the job parameters carry
    exactly two channel definitions; channel 0 has the chosen role and
    channel 1 the other one: PATIENT when channel 0 is CLINICIAN, CLINICIAN
    when channel 0 is PATIENT, and the two roles are never equal. *)
Theorem channel_roles_complementary (w : World) (st : ComponentState)
  (loc : S3Location) :
  audioSelection st <> "speakerPartitioning" ->
  exists other,
    audioParams (buildJobParams w st loc)
    = ChannelIdentificationParams
        [ {| ChannelId := 0; ParticipantRole := channel1 (audioDetails st) |};
          {| ChannelId := 1; ParticipantRole := other |} ]
        true
    /\ (channel1 (audioDetails st) = "CLINICIAN" -> other = "PATIENT")
    /\ (channel1 (audioDetails st) = "PATIENT" -> other = "CLINICIAN")
    /\ other <> channel1 (audioDetails st).
Proof.
  intros Hsel.
  unfold buildJobParams, buildAudioParams. cbn [audioParams].
  destruct (String.eqb_spec (audioSelection st) "speakerPartitioning")
    as [Heq|_]; [contradiction|].
  destruct (String.eqb_spec (channel1 (audioDetails st)) "CLINICIAN")
    as [Hc|Hc].
  - exists "PATIENT". rewrite Hc. repeat split; congruence.
  - exists "CLINICIAN". repeat split; congruence.
Qed.

Lemma channel_roles_complementary_witness :
  let st := {| isSubmitting := false;
               formError := "";
               jobName := "session-abc";
               audioSelection := "channelIdentification";
               audioDetails := {| maxSpeakers := 2; channel1 := "PATIENT" |};
               filePath := Some Sample.recording |} in
  audioSelection st <> "speakerPartitioning"
  /\ exists other,
      audioParams (buildJobParams Sample.completes st
                     (buildS3Location Sample.completes Sample.recording))
      = ChannelIdentificationParams
          [ {| ChannelId := 0; ParticipantRole := "PATIENT" |};
            {| ChannelId := 1; ParticipantRole := other |} ]
          true
      /\ other = "CLINICIAN".
Proof.
  cbv zeta.
  assert ("channelIdentification" <> "speakerPartitioning") as Hsel
    by discriminate.
  split; [exact Hsel|].
  destruct (channel_roles_complementary Sample.completes
              {| isSubmitting := false;
                 formError := "";
                 jobName := "session-abc";
                 audioSelection := "channelIdentification";
                 audioDetails := {| maxSpeakers := 2; channel1 := "PATIENT" |};
                 filePath := Some Sample.recording |}
              (buildS3Location Sample.completes Sample.recording) Hsel)
    as (other & Hp & _ & Hpat & _).
  exists other. split; [exact Hp|]. apply Hpat. reflexivity.
Defined.

(** ** Observations on the phases *)

Lemma notifications_app a b :
  notifications (a ++ b) = (notifications a ++ notifications b)%list.
Proof. apply flat_map_app. Qed.

Lemma navigations_app a b :
  navigations (a ++ b) = (navigations a ++ navigations b)%list.
Proof. apply flat_map_app. Qed.

Lemma startCalls_app a b :
  startCalls (a ++ b) = (startCalls a ++ startCalls b)%list.
Proof. apply flat_map_app. Qed.

Lemma getCalls_app a b :
  getCalls (a ++ b) = (getCalls a ++ getCalls b)%list.
Proof. apply flat_map_app. Qed.

Section PostedOnly.

Context {A : Type} (g : A -> ProgressNotification).

Lemma notifications_posted l :
  notifications (map (fun q => Ev_updateProgressBar (g q)) l) = map g l.
Proof.
  induction l as [|q l IH]; [reflexivity|]. cbn. now f_equal.
Qed.

Lemma navigations_posted l :
  navigations (map (fun q => Ev_updateProgressBar (g q)) l) = [].
Proof. induction l; [reflexivity|assumption]. Qed.

Lemma startCalls_posted l :
  startCalls (map (fun q => Ev_updateProgressBar (g q)) l) = [].
Proof. induction l; [reflexivity|assumption]. Qed.

Lemma getCalls_posted l :
  getCalls (map (fun q => Ev_updateProgressBar (g q)) l) = [].
Proof. induction l; [reflexivity|assumption]. Qed.

End PostedOnly.

Section PhaseObservations.

Variable w : World.
Variable r : Revision.
Variable st : ComponentState.
Variable f : File.

Lemma notifications_uploadPhase :
  notifications (uploadPhase w r st f)
  = initialNotification r
    :: map (uploadNotification r (jobName st))
           (uploadProgress w (uploadParamsOf w f)).
Proof.
  unfold uploadPhase. rewrite notifications_app, notifications_posted.
  reflexivity.
Qed.

Lemma navigations_uploadPhase : navigations (uploadPhase w r st f) = [].
Proof.
  unfold uploadPhase. rewrite navigations_app, navigations_posted.
  reflexivity.
Qed.

Lemma startCalls_uploadPhase : startCalls (uploadPhase w r st f) = [].
Proof.
  unfold uploadPhase. rewrite startCalls_app, startCalls_posted.
  reflexivity.
Qed.

Lemma getCalls_uploadPhase : getCalls (uploadPhase w r st f) = [].
Proof.
  unfold uploadPhase. rewrite getCalls_app, getCalls_posted.
  reflexivity.
Qed.

Lemma errors_uploadPhase :
  filter isError (notifications (uploadPhase w r st f)) = [].
Proof.
  rewrite notifications_uploadPhase. cbn [filter isError ntype initialNotification].
  induction (uploadProgress w (uploadParamsOf w f)) as [|q l IH];
    [reflexivity|exact IH].
Qed.

Lemma infos_uploadPhase :
  filter isInfo (notifications (uploadPhase w r st f)) = [].
Proof.
  rewrite notifications_uploadPhase. cbn [filter isInfo ntype initialNotification].
  induction (uploadProgress w (uploadParamsOf w f)) as [|q l IH];
    [reflexivity|exact IH].
Qed.

Lemma navigations_pollPhase k progress :
  navigations (pollPhase r st k progress) = [].
Proof.
  revert progress. induction k as [|k IH]; intros progress; [reflexivity|].
  cbn [pollPhase]. rewrite navigations_app, IH. reflexivity.
Qed.

Lemma startCalls_pollPhase k progress :
  startCalls (pollPhase r st k progress) = [].
Proof.
  revert progress. induction k as [|k IH]; intros progress; [reflexivity|].
  cbn [pollPhase]. rewrite startCalls_app, IH. reflexivity.
Qed.

Lemma getCalls_pollPhase k progress :
  getCalls (pollPhase r st k progress) = repeat (jobName st) k.
Proof.
  revert progress. induction k as [|k IH]; intros progress; [reflexivity|].
  cbn [pollPhase]. rewrite getCalls_app, IH. reflexivity.
Qed.

Lemma errors_pollPhase k progress :
  filter isError (notifications (pollPhase r st k progress)) = [].
Proof.
  revert progress. induction k as [|k IH]; intros progress; [reflexivity|].
  cbn [pollPhase]. rewrite notifications_app, filter_app, IH. reflexivity.
Qed.

End PhaseObservations.

(** ** The submission workflow *)

Lemma strict_eq_other (a : option string) (lit : string) :
  a <> Some lit -> strict_eq a lit = false.
Proof.
  intros H. destruct a as [v|]; [|reflexivity]. cbn.
  destruct (String.eqb_spec v lit) as [->|]; [contradiction|reflexivity].
Qed.

Lemma pollStart_advance (r : Revision) :
  pollStart r < advance r (pollStart r) < 100.
Proof. destruct r; vm_compute; split; reflexivity. Qed.

(** C1: job name [session-abc], the upload succeeds, the creation answers
    SUBMITTED, the first status query IN_PROGRESS, the second COMPLETED.
    Then, in both revisions and with any budget of two iterations or more,
    the handler returns; after the creation it posts exactly two polling
    notifications, with strictly increasing values below 100, then one
    notification typed success with value 100, and then navigates to
    [/conversation/session-abc]. *)
Theorem submitJob_session_abc_scenario (w : World) (r : Revision)
  (st : ComponentState) (f : File) (startJob g0 g1 : option Response)
  (extra : nat) :
  jobName st = "session-abc" ->
  filePath st = Some f ->
  verified (verifyJobParams w (jobParamsOf w st f)) = true ->
  uploadSettles w (uploadParamsOf w f) = Resolves tt ->
  startJobSettles w (jobParamsOf w st f) = Resolves startJob ->
  response_status startJob = Some "SUBMITTED" ->
  getJobSettles w 0%nat "session-abc" = Resolves g0 ->
  response_status g0 = Some "IN_PROGRESS" ->
  getJobSettles w 1%nat "session-abc" = Resolves g1 ->
  response_status g1 = Some "COMPLETED" ->
  let first := pollNotification r st (pollStart r) in
  let second := pollNotification r st (advance r (pollStart r)) in
  let done := completedNotification r st in
  runSubmit w r st (2 + extra)%nat
  = (Normal tt,
     {| component := set_isSubmitting false (submitting st);
        trace :=
          uploadPhase w r st f
          ++ [ Ev_startMedicalScribeJob (jobParamsOf w st f);
               Ev_updateProgressBar (createdNotification r st);
               Ev_sleep 5000;
               Ev_getHealthScribeJob "session-abc";
               Ev_updateProgressBar first;
               Ev_sleep 5000;
               Ev_getHealthScribeJob "session-abc";
               Ev_updateProgressBar second;
               Ev_updateProgressBar done;
               Ev_sleep 500;
               Ev_navigate "/conversation/session-abc";
               Ev_setIsSubmitting false ] |})
  /\ value first < value second < 100
  /\ ntype first = None /\ ntype second = None
  /\ value done = 100 /\ ntype done = Some success.
Proof.
  intros Hname Hfile Hver Hup Hstart Hst Hg0 Hs0 Hg1 Hs1 first second done.
  split.
  - rewrite (submitJob_valid w r st f _ Hfile Hver), Hup.
    rewrite createAndPoll_run, Hstart, Hst. cbn [truthy String.eqb negb].
    rewrite <- Hname in Hg0, Hg1.
    change (2 + extra)%nat with (S 1 + extra)%nat.
    rewrite (pollLoop_completes w r st 1 extra 0 _ _ g1).
    + unfold finish, extend, completedPhase.
      cbn [component trace pollPhase advanceN].
      rewrite <- !app_assoc. cbn [app]. rewrite Hname. reflexivity.
    + intros j Hj. assert (j = 0%nat) as -> by lia.
      exists g0. split; [exact Hg0|]. now rewrite Hs0.
    + exact Hg1.
    + now rewrite Hs1.
  - split; [apply pollStart_advance|]. repeat split.
Qed.

Lemma submitJob_session_abc_scenario_witness :
  fst (runSubmit Sample.completes RadioLayout Sample.page 2) = Normal tt
  /\ map value
       (notifications (trace (snd (runSubmit Sample.completes RadioLayout
                                     Sample.page 2))))
     = [0; 50; 99; 20; 10; 15; 100]
  /\ navigations (trace (snd (runSubmit Sample.completes RadioLayout
                                Sample.page 2)))
     = ["/conversation/session-abc"].
Proof.
  pose proof (submitJob_session_abc_scenario Sample.completes RadioLayout
                Sample.page Sample.recording
                (Sample.withStatus "SUBMITTED")
                (Sample.withStatus "IN_PROGRESS")
                (Sample.withStatus "COMPLETED") 0
                eq_refl eq_refl eq_refl eq_refl eq_refl eq_refl eq_refl
                eq_refl eq_refl eq_refl) as [Hrun _].
  change (2 + 0)%nat with 2%nat in Hrun.
  rewrite Hrun. repeat split.
Defined.

(** C2: when the upload rejects, the handler posts, as its last
    notification, one typed error whose text names the file and carries the
    message of the error; it throws that same error; and it never calls
    [startMedicalScribeJob]. *)
Theorem submitJob_upload_rejected (w : World) (r : Revision)
  (st : ComponentState) (f : File) (e : Error) (fuel : nat) :
  filePath st = Some f ->
  verified (verifyJobParams w (jobParamsOf w st f)) = true ->
  uploadSettles w (uploadParamsOf w f) = Rejects e ->
  let failure := uploadFailedNotification r st f e in
  let run := runSubmit w r st fuel in
  run = (Throw e,
         {| component := set_isSubmitting false (submitting st);
            trace := uploadPhase w r st f
                     ++ [ Ev_updateProgressBar failure;
                          Ev_setIsSubmitting false ] |})
  /\ ntype failure = Some error
  /\ additionalInfo failure
     = Some ("Error uploading " ++ name f ++ ": " ++ message e)
  /\ filter isError (notifications (trace (snd run))) = [failure]
  /\ last (notifications (trace (snd run))) failure = failure
  /\ startCalls (trace (snd run)) = [].
Proof.
  intros Hfile Hver Hup failure run.
  assert (run = (Throw e,
                 {| component := set_isSubmitting false (submitting st);
                    trace := uploadPhase w r st f
                             ++ [ Ev_updateProgressBar failure;
                                  Ev_setIsSubmitting false ] |})) as Hrun.
  { unfold run. rewrite (submitJob_valid w r st f _ Hfile Hver), Hup.
    reflexivity. }
  split; [exact Hrun|]. rewrite Hrun. cbn [snd trace].
  split; [reflexivity|]. split; [reflexivity|].
  rewrite notifications_app, startCalls_app, startCalls_uploadPhase.
  rewrite filter_app, errors_uploadPhase.
  split; [reflexivity|]. split; [|reflexivity].
  cbn [notifications flat_map app]. apply last_last.
Qed.

Lemma submitJob_upload_rejected_witness :
  fst (runSubmit Sample.uploadFails RadioLayout Sample.page 3)
  = Throw Sample.networkDown
  /\ map additionalInfo
       (filter isError
          (notifications (trace (snd (runSubmit Sample.uploadFails RadioLayout
                                        Sample.page 3)))))
     = [Some "Error uploading visit.wav: Network Failure"]
  /\ startCalls (trace (snd (runSubmit Sample.uploadFails RadioLayout
                               Sample.page 3))) = [].
Proof.
  pose proof (submitJob_upload_rejected Sample.uploadFails RadioLayout
                Sample.page Sample.recording Sample.networkDown 3
                eq_refl eq_refl eq_refl) as (Hrun & _ & _ & Herr & _ & Hstart).
  cbv zeta in Hrun, Herr, Hstart.
  split; [now rewrite Hrun|]. split; [now rewrite Herr|exact Hstart].
Defined.

(** C3: when the upload and the creation succeed and no status query throws
    or answers COMPLETED (FAILED included), the handler is still in the loop
    after any number of iterations: with a budget of [fuel] iterations it
    has made [fuel] status queries and is pending; it has not navigated and
    has posted no notification typed error. *)
Theorem pollLoop_only_COMPLETED_exits (w : World) (r : Revision)
  (st : ComponentState) (f : File) (startJob : option Response) (fuel : nat) :
  filePath st = Some f ->
  verified (verifyJobParams w (jobParamsOf w st f)) = true ->
  uploadSettles w (uploadParamsOf w f) = Resolves tt ->
  startJobSettles w (jobParamsOf w st f) = Resolves startJob ->
  truthy (response_status startJob) = true ->
  (forall n, exists g,
      getJobSettles w n (jobName st) = Resolves g
      /\ response_status g <> Some "COMPLETED") ->
  let run := runSubmit w r st fuel in
  run = (Pending,
         {| component := submitting st;
            trace := uploadPhase w r st f
                     ++ [ Ev_startMedicalScribeJob (jobParamsOf w st f);
                          Ev_updateProgressBar (createdNotification r st) ]
                     ++ pollPhase r st fuel (pollStart r) |})
  /\ getCalls (trace (snd run)) = repeat (jobName st) fuel
  /\ navigations (trace (snd run)) = []
  /\ filter isError (notifications (trace (snd run))) = [].
Proof.
  intros Hfile Hver Hup Hstart Htruthy Hpolls run.
  assert (run = (Pending,
                 {| component := submitting st;
                    trace := uploadPhase w r st f
                      ++ [ Ev_startMedicalScribeJob (jobParamsOf w st f);
                           Ev_updateProgressBar (createdNotification r st) ]
                      ++ pollPhase r st fuel (pollStart r) |})) as Hrun.
  { unfold run. rewrite (submitJob_valid w r st f _ Hfile Hver), Hup.
    rewrite createAndPoll_run, Hstart, Htruthy.
    rewrite pollLoop_waiting.
    - unfold extend. cbn [component trace]. rewrite <- app_assoc. reflexivity.
    - intros k _. destruct (Hpolls k) as (g & Hg & Hs).
      exists g. split; [exact Hg|]. now apply strict_eq_other. }
  split; [exact Hrun|]. rewrite Hrun. cbn [snd trace].
  rewrite !getCalls_app, !navigations_app, !notifications_app, !filter_app.
  rewrite getCalls_uploadPhase, navigations_uploadPhase, errors_uploadPhase.
  rewrite getCalls_pollPhase, navigations_pollPhase, errors_pollPhase.
  repeat split.
Qed.

Lemma pollLoop_only_COMPLETED_exits_witness :
  fst (runSubmit Sample.jobFails TabsLayout Sample.page 40) = Pending
  /\ length (getCalls (trace (snd (runSubmit Sample.jobFails TabsLayout
                                     Sample.page 40)))) = 40%nat
  /\ navigations (trace (snd (runSubmit Sample.jobFails TabsLayout
                                Sample.page 40))) = [].
Proof.
  assert (forall n : nat, exists g,
             getJobSettles Sample.jobFails n (jobName Sample.page) = Resolves g
             /\ response_status g <> Some "COMPLETED") as Hpolls.
  { intros n. exists (Sample.withStatus "FAILED").
    split; [reflexivity|discriminate]. }
  pose proof (pollLoop_only_COMPLETED_exits Sample.jobFails TabsLayout
                Sample.page Sample.recording (Sample.withStatus "SUBMITTED") 40
                eq_refl eq_refl eq_refl eq_refl eq_refl Hpolls)
    as (Hrun & Hget & Hnav & _).
  cbv zeta in Hrun, Hget, Hnav.
  split; [now rewrite Hrun|]. split; [|exact Hnav].
  rewrite Hget. apply repeat_length.
Defined.

(** C8: when the upload succeeds and the creation answers without a status
    (or with an empty one), the handler posts exactly one notification typed
    info, whose text echoes the raw response, makes no status query, posts
    no notification typed error, does not navigate, and returns. *)
Theorem submitJob_unconfirmed (w : World) (r : Revision)
  (st : ComponentState) (f : File) (startJob : option Response) (fuel : nat) :
  filePath st = Some f ->
  verified (verifyJobParams w (jobParamsOf w st f)) = true ->
  uploadSettles w (uploadParamsOf w f) = Resolves tt ->
  startJobSettles w (jobParamsOf w st f) = Resolves startJob ->
  truthy (response_status startJob) = false ->
  let note := unconfirmedNotification w r st startJob in
  let run := runSubmit w r st fuel in
  run = (Normal tt,
         {| component := set_isSubmitting false (submitting st);
            trace := uploadPhase w r st f
                     ++ [ Ev_startMedicalScribeJob (jobParamsOf w st f);
                          Ev_updateProgressBar note;
                          Ev_setIsSubmitting false ] |})
  /\ ntype note = Some info
  /\ additionalInfo note
     = Some ("Response from HealthScribe: "
             ++ JSON_stringify w (response_data startJob))
  /\ filter isInfo (notifications (trace (snd run))) = [note]
  /\ filter isError (notifications (trace (snd run))) = []
  /\ getCalls (trace (snd run)) = []
  /\ navigations (trace (snd run)) = [].
Proof.
  intros Hfile Hver Hup Hstart Hfalsy note run.
  assert (run = (Normal tt,
                 {| component := set_isSubmitting false (submitting st);
                    trace := uploadPhase w r st f
                      ++ [ Ev_startMedicalScribeJob (jobParamsOf w st f);
                           Ev_updateProgressBar note;
                           Ev_setIsSubmitting false ] |})) as Hrun.
  { unfold run. rewrite (submitJob_valid w r st f _ Hfile Hver), Hup.
    rewrite createAndPoll_run, Hstart, Hfalsy.
    unfold finish, extend. cbn [component trace].
    rewrite <- app_assoc. reflexivity. }
  split; [exact Hrun|]. rewrite Hrun. cbn [snd trace].
  rewrite !getCalls_app, !navigations_app, !notifications_app, !filter_app.
  rewrite getCalls_uploadPhase, navigations_uploadPhase, errors_uploadPhase,
    infos_uploadPhase.
  repeat split.
Qed.

Lemma submitJob_unconfirmed_witness :
  fst (runSubmit Sample.unconfirmed TabsLayout Sample.page 5) = Normal tt
  /\ map additionalInfo
       (filter isInfo
          (notifications (trace (snd (runSubmit Sample.unconfirmed TabsLayout
                                        Sample.page 5)))))
     = [Some "Response from HealthScribe: {}"]
  /\ getCalls (trace (snd (runSubmit Sample.unconfirmed TabsLayout
                             Sample.page 5))) = [].
Proof.
  pose proof (submitJob_unconfirmed Sample.unconfirmed TabsLayout
                Sample.page Sample.recording Sample.withoutStatus 5
                eq_refl eq_refl eq_refl eq_refl eq_refl)
    as (Hrun & _ & _ & Hinfo & _ & Hget & _).
  cbv zeta in Hrun, Hinfo, Hget.
  split; [now rewrite Hrun|]. split; [now rewrite Hinfo|exact Hget].
Defined.


(** ** What every run preserves *)

Lemma runSubmit_component (w : World) (r : Revision) (st : ComponentState)
  (fuel : nat) :
  let run := runSubmit w r st fuel in
  sameForm (component (snd run)) st
  /\ (filePath st <> None ->
      isSubmitting (component (snd run))
      = match fst run with Pending => true | _ => false end).
Proof.
  cbv zeta.
  destruct (filePath st) as [f|] eqn:Hfile.
  - destruct (verified (verifyJobParams w (jobParamsOf w st f))) eqn:Hver.
    + rewrite (submitJob_valid w r st f _ Hfile Hver).
      destruct (uploadSettles w (uploadParamsOf w f)) as [[]|e].
      * rewrite createAndPoll_run.
        destruct (startJobSettles w (jobParamsOf w st f)) as [startJob|e].
        -- destruct (truthy (response_status startJob)).
           ++ match goal with
              | |- context [pollLoop w r st fuel ?n ?p ?s] =>
                  pose proof (pollLoop_component w r st fuel n p s) as Hc;
                  destruct (pollLoop w r st fuel n p s) as [[[]|e|] s']
              end; cbn in Hc |- *; rewrite Hc; repeat split.
           ++ repeat split.
        -- repeat split.
      * repeat split.
    + rewrite (submitJob_invalid w r st f _ Hfile Hver). repeat split.
  - rewrite (submitJob_no_file w r st fuel Hfile).
    split; [repeat split|]. intros H. now contradiction H.
Qed.

(** A run of the handler that has come to an end does not depend on the
    budget of loop iterations. *)
Lemma runSubmit_budget (w : World) (r : Revision) (st : ComponentState)
  (fuel : nat) (c : Completion unit) (s' : Run) :
  runSubmit w r st fuel = (c, s') ->
  c <> Pending ->
  forall more, runSubmit w r st (fuel + more) = (c, s').
Proof.
  intros Hrun Hc more.
  destruct (filePath st) as [f|] eqn:Hfile.
  - destruct (verified (verifyJobParams w (jobParamsOf w st f))) eqn:Hver.
    + rewrite (submitJob_valid w r st f fuel Hfile Hver) in Hrun.
      rewrite (submitJob_valid w r st f (fuel + more) Hfile Hver).
      destruct (uploadSettles w (uploadParamsOf w f)) as [[]|e];
        [|exact Hrun].
      rewrite createAndPoll_run in Hrun |- *.
      destruct (startJobSettles w (jobParamsOf w st f)) as [startJob|e];
        [|exact Hrun].
      destruct (truthy (response_status startJob)); [|exact Hrun].
      match type of Hrun with
      | context [pollLoop w r st fuel ?n ?p ?s] =>
          destruct (pollLoop w r st fuel n p s) as [c1 s1] eqn:Hloop
      end.
      assert (c1 <> Pending) as Hc1.
      { intros ->. injection Hrun as <- _. contradiction. }
      rewrite (pollLoop_budget w r st fuel _ _ _ _ _ Hloop Hc1 more).
      exact Hrun.
    + rewrite (submitJob_invalid w r st f fuel Hfile Hver) in Hrun.
      rewrite (submitJob_invalid w r st f (fuel + more) Hfile Hver).
      exact Hrun.
  - rewrite (submitJob_no_file w r st fuel Hfile) in Hrun.
    rewrite (submitJob_no_file w r st (fuel + more) Hfile). exact Hrun.
Qed.

(** C10: whenever the handler has come to an end, by returning (after the
    workflow or early, from the validation) or by throwing again the error
    of the upload, of the creation or of a status query, [isSubmitting] is
    false; while it is still pending in the loop, [isSubmitting] is true. *)
Theorem isSubmitting_reset_on_exit (w : World) (r : Revision)
  (st : ComponentState) (f : File) (fuel : nat) :
  filePath st = Some f ->
  let run := runSubmit w r st fuel in
  isSubmitting (component (snd run))
  = match fst run with
    | Normal _ | Throw _ => false
    | Pending => true
    end.
Proof.
  intros Hfile. cbv zeta.
  destruct (runSubmit_component w r st fuel) as [_ H].
  rewrite H by (rewrite Hfile; discriminate).
  destruct (fst (runSubmit w r st fuel)); reflexivity.
Qed.

Lemma isSubmitting_reset_on_exit_witness :
  fst (runSubmit Sample.pollFails RadioLayout Sample.page 5)
  = Throw Sample.networkDown
  /\ isSubmitting (component (snd (runSubmit Sample.pollFails RadioLayout
                                     Sample.page 5))) = false.
Proof.
  split; [reflexivity|].
  exact (isSubmitting_reset_on_exit Sample.pollFails RadioLayout Sample.page
           Sample.recording 5 eq_refl).
Defined.

(** ** What every run posts *)

Section Posts.

Variable w : World.
Variable r : Revision.
Variable st : ComponentState.
Variable P : ProgressNotification -> Prop.

Lemma posts_extend s es :
  posts P s -> Forall P (notifications es) -> posts P (extend s es).
Proof.
  unfold posts, extend. cbn [trace]. intros Hs Hes.
  rewrite notifications_app. apply Forall_app. now split.
Qed.

Lemma posts_failed s n : posts P s -> P n -> posts P (failed s n).
Proof.
  unfold posts, failed. cbn [trace]. intros Hs Hn.
  rewrite notifications_app. apply Forall_app. split; [exact Hs|].
  cbn. now constructor.
Qed.

Lemma posts_finish s : posts P s -> posts P (finish s).
Proof.
  unfold posts, finish. cbn [trace]. intros Hs.
  rewrite notifications_app. apply Forall_app. split; [exact Hs|].
  constructor.
Qed.

Hypothesis P_poll : forall progress, P (pollNotification r st progress).
Hypothesis P_completed : P (completedNotification r st).

Lemma pollLoop_posts fuel : forall n progress s,
  posts P s -> posts P (snd (pollLoop w r st fuel n progress s)).
Proof.
  induction fuel as [|fuel IH]; intros n progress s Hs; [exact Hs|].
  rewrite pollLoop_step.
  destruct (getJobSettles w n (jobName st)) as [g|e].
  - destruct (strict_eq (response_status g) "COMPLETED").
    + cbn [snd]. apply posts_extend; [exact Hs|].
      cbn. constructor; [apply P_poll|].
      constructor; [exact P_completed|constructor].
    + apply IH. apply posts_extend; [exact Hs|].
      cbn. constructor; [apply P_poll|constructor].
  - cbn [snd]. apply posts_extend; [exact Hs|]. constructor.
Qed.

Hypothesis P_initial : P (initialNotification r).
Hypothesis P_upload : forall q, P (uploadNotification r (jobName st) q).
Hypothesis P_uploadFailed : forall f e, P (uploadFailedNotification r st f e).
Hypothesis P_created : P (createdNotification r st).
Hypothesis P_unconfirmed : forall startJob,
    P (unconfirmedNotification w r st startJob).
Hypothesis P_submitFailed : forall e, P (submitFailedNotification r st e).

Lemma uploadPhase_posts f :
  posts P {| component := submitting st; trace := uploadPhase w r st f |}.
Proof.
  unfold posts. cbn [trace]. rewrite notifications_uploadPhase.
  constructor; [exact P_initial|].
  apply Forall_forall. intros n Hn. apply in_map_iff in Hn.
  destruct Hn as (q & <- & _). apply P_upload.
Qed.

(** Every notification a run posts is one of the eight the handler builds. *)
Lemma runSubmit_posts fuel : posts P (snd (runSubmit w r st fuel)).
Proof.
  destruct (filePath st) as [f|] eqn:Hfile.
  - destruct (verified (verifyJobParams w (jobParamsOf w st f))) eqn:Hver.
    + rewrite (submitJob_valid w r st f _ Hfile Hver).
      pose proof (uploadPhase_posts f) as Hup.
      destruct (uploadSettles w (uploadParamsOf w f)) as [[]|e].
      * rewrite createAndPoll_run.
        destruct (startJobSettles w (jobParamsOf w st f)) as [startJob|e].
        -- destruct (truthy (response_status startJob)).
           ++ match goal with
              | |- context [pollLoop w r st fuel ?n ?p ?s] =>
                  assert (posts P s) as Hs
                    by (apply posts_extend; [exact Hup|];
                        cbn; constructor; [exact P_created|constructor]);
                  pose proof (pollLoop_posts fuel n p s Hs) as Hl;
                  destruct (pollLoop w r st fuel n p s) as [[[]|e|] s']
              end; cbn [snd] in Hl |- *.
              ** now apply posts_finish.
              ** apply posts_failed; [exact Hl|apply P_submitFailed].
              ** exact Hl.
           ++ cbn [snd]. apply posts_finish. apply posts_extend; [exact Hup|].
              cbn. constructor; [apply P_unconfirmed|constructor].
        -- cbn [snd]. apply posts_failed; [|apply P_submitFailed].
           apply posts_extend; [exact Hup|]. constructor.
      * cbn [snd]. apply posts_failed; [exact Hup|apply P_uploadFailed].
    + rewrite (submitJob_invalid w r st f _ Hfile Hver). constructor.
  - rewrite (submitJob_no_file w r st fuel Hfile). constructor.
Qed.

End Posts.

(** ** Notification ids *)

(** Notifications that all carry one id leave at most one entry in the
    sink. *)
Lemma upsert_same_id n m : id m = id n -> upsert n [m] = [n].
Proof.
  intros H. cbn. rewrite H, String.eqb_refl. reflexivity.
Qed.

Lemma sinkAfter_one_id (i : string) (l : list ProgressNotification) :
  Forall (fun n => id n = i) l -> (length (sinkAfter l) <= 1)%nat.
Proof.
  unfold sinkAfter.
  assert (forall sink,
             Forall (fun n => id n = i) sink -> (length sink <= 1)%nat ->
             Forall (fun n => id n = i) l ->
             (length (fold_left (fun sink n => upsert n sink) l sink) <= 1)%nat)
    as H.
  { induction l as [|n l IH]; intros sink Hsink Hlen Hl; [exact Hlen|].
    inversion Hl as [|? ? Hn Hl']; subst. cbn [fold_left].
    destruct sink as [|m [|m' sink]]; cbn in Hlen; try lia.
    - apply IH; [repeat constructor|cbn; lia|exact Hl'].
    - inversion Hsink as [|? ? Hm _]; subst.
      rewrite upsert_same_id by congruence.
      apply IH; [repeat constructor|cbn; lia|exact Hl']. }
  intros Hl. apply H; [constructor|cbn; lia|exact Hl].
Qed.

(** C5, as the claim states it, fails.  In the radio revision a submission
    whose upload rejects posts under three ids: the initial notification
    under the fixed id [Transcribing Audio], the upload progress under
    [New HealthScribe Job: <name>] and the failure under [New Job: <name>]. *)
Lemma notification_ids_differ :
  let posted := notifications (trace (snd (runSubmit Sample.uploadFails
                                             RadioLayout Sample.page 1))) in
  map id posted
  = [ "Transcribing Audio";
      "New HealthScribe Job: session-abc";
      "New Job: session-abc" ]
  /\ ~ (exists i, Forall (fun n => id n = i) posted).
Proof.
  cbv zeta. split; [reflexivity|].
  intros (i & H).
  assert (Forall (fun j => j = i)
            (map id (notifications
                       (trace (snd (runSubmit Sample.uploadFails RadioLayout
                                      Sample.page 1)))))) as H'.
  { apply Forall_map. exact H. }
  change (Forall (fun j => j = i)
            [ "Transcribing Audio";
              "New HealthScribe Job: session-abc";
              "New Job: session-abc" ]) in H'.
  inversion H' as [|? ? H1 H2]; subst.
  inversion H2 as [|? ? H3 _]; subst.
  discriminate H3.
Qed.

(** With the sink the spec describes, that run leaves three entries. *)
Example radio_upload_failure_entries :
  length (sinkAfter (notifications
                       (trace (snd (runSubmit Sample.uploadFails RadioLayout
                                      Sample.page 1))))) = 3%nat.
Proof. reflexivity. Qed.

(** In the tabs revision the one id does not follow the job name, and the
    sink holds one entry whatever the run. *)
Example tabs_id_ignores_job_name :
  jobId TabsLayout "session-abc" = jobId TabsLayout "session-xyz".
Proof. reflexivity. Qed.

Lemma tabs_one_entry (w : World) (st : ComponentState) (fuel : nat) :
  (length (sinkAfter (notifications
                        (trace (snd (runSubmit w TabsLayout st fuel))))) <= 1)%nat.
Proof.
  apply (sinkAfter_one_id "Transcribing Audio").
  apply runSubmit_posts; intros; reflexivity.
Qed.

(** C5, amended: in the tabs revision every notification of the workflow
    carries the one fixed id [Transcribing Audio], whatever the job name; in
    the radio revision every notification of the upload progress and of the
    creation and polling phase carries the one id
    [New HealthScribe Job: <name>], keyed by the job name (the initial
    notification and the one of a failed upload are left aside). *)
Theorem notification_ids (w : World) (st : ComponentState) (fuel : nat) :
  Forall (fun n => id n = "Transcribing Audio")
    (notifications (trace (snd (runSubmit w TabsLayout st fuel))))
  /\ Forall (fun n => id n = "New HealthScribe Job: " ++ jobName st
                      \/ n = initialNotification RadioLayout
                      \/ exists f e,
                           n = uploadFailedNotification RadioLayout st f e)
       (notifications (trace (snd (runSubmit w RadioLayout st fuel)))).
Proof.
  split.
  - apply runSubmit_posts; intros; reflexivity.
  - apply runSubmit_posts; intros;
      try (left; reflexivity);
      try (right; left; reflexivity).
    right. right. eauto.
Qed.

(** ** Resubmission *)

(** C9, as the claim states it, fails.  A page is mounted with the name
    [session-abc]; a submission from it fails when the creation call throws;
    the page is rendered again and the user submits again.  The second
    attempt asks for a job of the same name. *)
Lemma resubmission_reuses_job_name :
  let page := set_filePath (Some Sample.recording) (render None "abc") in
  let attempt := submitFrom Sample.createFails RadioLayout page 3 in
  let page' := rerender attempt "def" in
  let retry := submitFrom Sample.completes RadioLayout page' 3 in
  fst attempt = Throw Sample.networkDown
  /\ map MedicalScribeJobName (startCalls (trace (snd attempt)))
     = ["session-abc"]
  /\ map MedicalScribeJobName (startCalls (trace (snd retry)))
     = ["session-abc"]
  /\ ~ (jobName page' <> jobName page).
Proof.
  cbv zeta. repeat split. intros H. apply H. reflexivity.
Qed.

(** C9, amended: the job name is generated once, when the component mounts;
    the handler never sets it and a later render keeps it, whatever value
    [uuidv4] returns then.  So, after an attempt that failed (or ended in any
    other way), a resubmission from the same page uses the job name of that
    attempt, and the parameters it builds carry that name. *)
Theorem resubmission_keeps_job_name (w w' : World) (r : Revision)
  (page : ComponentState) (fuel : nat) (uuid : string) (f : File) :
  let attempt := submitFrom w r page fuel in
  let page' := rerender attempt uuid in
  jobName (component (snd attempt)) = jobName page
  /\ jobName page' = jobName page
  /\ MedicalScribeJobName (jobParamsOf w' page' f) = jobName page.
Proof.
  cbv zeta. unfold submitFrom, rerender.
  destruct (runSubmit_component w r page fuel) as [(Hname & _) _].
  repeat split; exact Hname.
Qed.

(** ** Progress values *)

(** Inside the loop the counter never goes down. *)
Lemma advance_nondecreasing (r : Revision) (progress : Z) :
  progress <= pollCap r -> progress <= advance r progress <= pollCap r.
Proof.
  intros H. unfold advance.
  assert (0 < pollStep r) by (destruct r; reflexivity).
  destruct (Z.geb_spec (progress + pollStep r) (pollCap r)); lia.
Qed.

(** C4 does not hold of the code: in both revisions the first polling
    notification carries the id of the creation notification and a value
    below its 20.  In the C1 scenario the values posted under the job's id
    before the terminal notification go down twice, from the 99 of the
    upload to 20 and from 20 to the first value of the loop. *)
Theorem progress_regresses_at_first_poll (r : Revision) (st : ComponentState) :
  id (pollNotification r st (pollStart r)) = id (createdNotification r st)
  /\ value (createdNotification r st) = 20
  /\ value (pollNotification r st (pollStart r))
     < value (createdNotification r st)
  /\ let posted :=
       notifications (trace (snd (runSubmit Sample.completes r Sample.page 2))) in
     let values := valuesOf (jobId r "session-abc") (untilTerminal posted) in
     values = match r with
              | RadioLayout => [50; 99; 20; 10; 15]
              | TabsLayout => [0; 50; 99; 20; 5; 8]
              end
     /\ nondecreasing values = false.
Proof.
  split; [reflexivity|]. split; [reflexivity|].
  split; [destruct r; reflexivity|].
  destruct r; split; reflexivity.
Qed.

(** * Further properties of the handler *)

(** ** Every run, by its outcome *)

Lemma pollPhase_snoc (r : Revision) (st : ComponentState) (k : nat) :
  forall progress,
    pollPhase r st (S k) progress
    = (pollPhase r st k progress
       ++ [ Ev_sleep 5000;
            Ev_getHealthScribeJob (jobName st);
            Ev_updateProgressBar
              (pollNotification r st (advanceN r k progress)) ])%list.
Proof.
  induction k as [|k IH]; intros progress; [reflexivity|].
  change (pollPhase r st (S (S k)) progress)
    with ([ Ev_sleep 5000;
            Ev_getHealthScribeJob (jobName st);
            Ev_updateProgressBar (pollNotification r st progress) ]
          ++ pollPhase r st (S k) (advance r progress))%list.
  rewrite IH. reflexivity.
Qed.

Lemma advanceN_snoc (r : Revision) (k : nat) :
  forall progress,
    advanceN r (S k) progress = advance r (advanceN r k progress).
Proof.
  induction k as [|k IH]; intros progress; [reflexivity|].
  change (advanceN r (S (S k)) progress)
    with (advanceN r (S k) (advance r progress)).
  rewrite IH. reflexivity.
Qed.

Lemma pollValues_snoc (r : Revision) (k : nat) :
  forall progress,
    pollValues r (S k) progress
    = (pollValues r k progress ++ [advanceN r k progress])%list.
Proof.
  induction k as [|k IH]; intros progress; [reflexivity|].
  change (pollValues r (S (S k)) progress)
    with (progress :: pollValues r (S k) (advance r progress)).
  rewrite IH. reflexivity.
Qed.

Lemma pollOutcome_ofLoop (w : World) (st : ComponentState) (fuel : nat) :
  forall n k, ofLoop (pollOutcome w st fuel n k) = true.
Proof.
  induction fuel as [|fuel IH]; intros n k; [reflexivity|].
  cbn [pollOutcome].
  destruct (getJobSettles w n (jobName st)) as [g|e]; [|reflexivity].
  destruct (strict_eq (response_status g) "COMPLETED"); [reflexivity|].
  apply IH.
Qed.

(** The loop, from its [k]-th iteration on, runs as its outcome says. *)
Lemma pollLoop_outcome (w : World) (r : Revision) (st : ComponentState)
  (s : Run) (fuel : nat) :
  forall n k,
    pollLoop w r st fuel n (advanceN r k (pollStart r))
      (extend s (pollPhase r st k (pollStart r)))
    = loopOf r st s (pollOutcome w st fuel n k).
Proof.
  induction fuel as [|fuel IH]; intros n k; [reflexivity|].
  rewrite pollLoop_step. cbn [pollOutcome].
  destruct (getJobSettles w n (jobName st)) as [g|e].
  - destruct (strict_eq (response_status g) "COMPLETED").
    + cbn [loopOf]. now rewrite extend_extend.
    + rewrite extend_extend, <- pollPhase_snoc, <- advanceN_snoc.
      apply IH.
  - cbn [loopOf]. now rewrite extend_extend.
Qed.

(** The handler, from a page with a selected file, runs as its outcome
    says. *)
Lemma runSubmit_outcome (w : World) (r : Revision) (st : ComponentState)
  (f : File) (fuel : nat) :
  filePath st = Some f ->
  runSubmit w r st fuel = runOf w r st f (outcome w st f fuel).
Proof.
  intros Hfile. unfold outcome.
  destruct (verified (verifyJobParams w (jobParamsOf w st f))) eqn:Hver;
    cbn [negb].
  - rewrite (submitJob_valid w r st f fuel Hfile Hver).
    destruct (uploadSettles w (uploadParamsOf w f)) as [[]|e];
      [|reflexivity].
    rewrite createAndPoll_run.
    destruct (startJobSettles w (jobParamsOf w st f)) as [startJob|e];
      [|reflexivity].
    destruct (truthy (response_status startJob)); [|reflexivity].
    pose proof (pollLoop_outcome w r st (created w r st f) fuel 0 0) as Hloop.
    cbn [advanceN pollPhase] in Hloop. rewrite extend_nil in Hloop.
    match goal with
    | |- context [pollLoop w r st fuel 0%nat (pollStart r) ?s0] =>
        change s0 with (created w r st f)
    end.
    rewrite Hloop.
    pose proof (pollOutcome_ofLoop w st fuel 0 0) as Hof.
    destruct (pollOutcome w st fuel 0 0); try discriminate Hof; reflexivity.
  - apply (submitJob_invalid w r st f fuel Hfile Hver).
Qed.

(** ** What each outcome shows *)

Lemma uploadCalls_app a b :
  uploadCalls (a ++ b) = (uploadCalls a ++ uploadCalls b)%list.
Proof. apply flat_map_app. Qed.


Section OutcomeObservations.

Variable w : World.
Variable r : Revision.
Variable st : ComponentState.
Variable f : File.

Lemma notifications_pollPhase k : forall progress,
  notifications (pollPhase r st k progress)
  = map (pollNotification r st) (pollValues r k progress).
Proof.
  induction k as [|k IH]; intros progress; [reflexivity|].
  cbn [pollPhase pollValues map]. rewrite notifications_app, IH. reflexivity.
Qed.

Lemma uploadCalls_pollPhase k : forall progress,
  uploadCalls (pollPhase r st k progress) = [].
Proof.
  induction k as [|k IH]; intros progress; [reflexivity|].
  cbn [pollPhase]. rewrite uploadCalls_app, IH. reflexivity.
Qed.


Lemma uploadCalls_uploadPhase :
  uploadCalls (uploadPhase w r st f) = [uploadParamsOf w f].
Proof.
  unfold uploadPhase. rewrite uploadCalls_app. cbn [uploadCalls flat_map app].
  induction (uploadProgress w _) as [|q l IH]; [reflexivity|exact IH].
Qed.


Lemma notifications_runOf o :
  notifications (trace (snd (runOf w r st f o))) = notesOf w r st f o.
Proof.
  destruct o as [|e|e|startJob|k|k e|k];
    unfold runOf, notesOf, created, uploaded, failed, finish, extend,
      completedPhase, uploadNotes;
    cbn [snd trace];
    rewrite ?notifications_app, ?notifications_uploadPhase,
      ?notifications_pollPhase, ?pollValues_snoc, ?map_app;
    cbn [notifications flat_map app map];
    rewrite <- ?app_assoc; cbn [app]; rewrite ?app_nil_r; reflexivity.
Qed.

Lemma navigations_runOf o :
  navigations (trace (snd (runOf w r st f o)))
  = match o with
    | Completed _ => ["/conversation/" ++ jobName st]
    | _ => []
    end.
Proof.
  destruct o as [|e|e|startJob|k|k e|k];
    unfold runOf, created, uploaded, failed, finish, extend, completedPhase;
    cbn [snd trace];
    rewrite ?navigations_app, ?navigations_uploadPhase,
      ?navigations_pollPhase;
    reflexivity.
Qed.

Lemma startCalls_runOf o :
  startCalls (trace (snd (runOf w r st f o)))
  = match o with
    | Invalid | UploadFailed _ => []
    | _ => [jobParamsOf w st f]
    end.
Proof.
  destruct o as [|e|e|startJob|k|k e|k];
    unfold runOf, created, uploaded, failed, finish, extend, completedPhase;
    cbn [snd trace];
    rewrite ?startCalls_app, ?startCalls_uploadPhase, ?startCalls_pollPhase;
    reflexivity.
Qed.

Lemma getCalls_runOf o :
  getCalls (trace (snd (runOf w r st f o)))
  = match o with
    | Polling k => repeat (jobName st) k
    | PollFailed k _ | Completed k => repeat (jobName st) (S k)
    | _ => []
    end.
Proof.
  destruct o as [|e|e|startJob|k|k e|k];
    unfold runOf, created, uploaded, failed, finish, extend, completedPhase;
    cbn [snd trace];
    rewrite ?getCalls_app, ?getCalls_uploadPhase, ?getCalls_pollPhase;
    cbn [getCalls flat_map app]; rewrite ?app_nil_r;
    try reflexivity; symmetry; apply repeat_cons.
Qed.

Lemma uploadCalls_runOf o :
  uploadCalls (trace (snd (runOf w r st f o)))
  = match o with
    | Invalid => []
    | _ => [uploadParamsOf w f]
    end.
Proof.
  destruct o as [|e|e|startJob|k|k e|k];
    unfold runOf, created, uploaded, failed, finish, extend, completedPhase;
    cbn [snd trace];
    rewrite ?uploadCalls_app, ?uploadCalls_uploadPhase, ?uploadCalls_pollPhase;
    reflexivity.
Qed.


Lemma component_runOf o :
  component (snd (runOf w r st f o))
  = match o with
    | Invalid =>
        set_isSubmitting false
          (set_formError
             (verify_message (verifyJobParams w (jobParamsOf w st f)))
             (submitting st))
    | Polling _ => submitting st
    | _ => set_isSubmitting false (submitting st)
    end.
Proof.
  destruct o; reflexivity.
Qed.

End OutcomeObservations.

(** ** How the loop's outcome follows the answers *)

Section LoopAnswers.

Variable w : World.
Variable st : ComponentState.


Lemma pollOutcome_fails k : forall extra n i e,
  (forall j, (n <= j < n + k)%nat ->
             exists g', getJobSettles w j (jobName st) = Resolves g'
                        /\ strict_eq (response_status g') "COMPLETED" = false) ->
  getJobSettles w (n + k)%nat (jobName st) = Rejects e ->
  pollOutcome w st (S k + extra) n i = PollFailed (i + k) e.
Proof.
  induction k as [|k IH]; intros extra n i e H He.
  - rewrite Nat.add_0_r in He. cbn [pollOutcome Nat.add].
    rewrite He. now rewrite Nat.add_0_r.
  - destruct (H n) as (g' & Hg' & Hs'); [lia|].
    change (S (S k) + extra)%nat with (S (S k + extra)).
    cbn [pollOutcome]. rewrite Hg', Hs'.
    rewrite (IH extra (S n) (S i) e).
    + f_equal. lia.
    + intros j Hj. apply H. lia.
    + now replace (S n + k)%nat with (n + S k)%nat by lia.
Qed.

(** The loop makes no more iterations than its budget, and an outcome that
    names an answer names the one that was given. *)
Lemma pollOutcome_bound fuel : forall n i,
  match pollOutcome w st fuel n i with
  | Polling k => k = (i + fuel)%nat
  | PollFailed k e =>
      (i <= k < i + fuel)%nat
      /\ getJobSettles w (n + (k - i))%nat (jobName st) = Rejects e
  | Completed k =>
      (i <= k < i + fuel)%nat
      /\ exists g, getJobSettles w (n + (k - i))%nat (jobName st) = Resolves g
                   /\ strict_eq (response_status g) "COMPLETED" = true
  | _ => False
  end.
Proof.
  induction fuel as [|fuel IH]; intros n i.
  - cbn. lia.
  - cbn [pollOutcome].
    destruct (getJobSettles w n (jobName st)) as [g|e] eqn:Hg.
    + destruct (strict_eq (response_status g) "COMPLETED") eqn:Hs.
      * split; [lia|]. exists g. rewrite Nat.sub_diag, Nat.add_0_r.
        now split.
      * specialize (IH (S n) (S i)).
        destruct (pollOutcome w st fuel (S n) (S i)) as [| | | |k|k e|k];
          try contradiction.
        -- lia.
        -- destruct IH as [Hk He]. split; [lia|].
           now replace (n + (k - i))%nat with (S n + (k - S i))%nat by lia.
        -- destruct IH as [Hk He]. split; [lia|].
           now replace (n + (k - i))%nat with (S n + (k - S i))%nat by lia.
    + split; [lia|]. now rewrite Nat.sub_diag, Nat.add_0_r.
Qed.

End LoopAnswers.

(** ** Filters on the notifications of an outcome *)

Section NoteFilters.

Variable w : World.
Variable r : Revision.
Variable st : ComponentState.
Variable f : File.

Lemma errors_uploadNotes : filter isError (uploadNotes w r st f) = [].
Proof.
  unfold uploadNotes. cbn [filter isError ntype initialNotification].
  induction (uploadProgress w _) as [|q l IH]; [reflexivity|exact IH].
Qed.

Lemma polling_uploadNotes : filter isPolling (uploadNotes w r st f) = [].
Proof.
  unfold uploadNotes. cbn [filter isPolling additionalInfo initialNotification].
  induction (uploadProgress w _) as [|q l IH]; [reflexivity|exact IH].
Qed.

Lemma errors_polls vs :
  filter isError (map (pollNotification r st) vs) = [].
Proof. induction vs as [|v vs IH]; [reflexivity|exact IH]. Qed.

Lemma polling_polls vs :
  filter isPolling (map (pollNotification r st) vs)
  = map (pollNotification r st) vs.
Proof.
  induction vs as [|v vs IH]; [reflexivity|].
  cbn [map filter]. unfold isPolling at 1. cbn. now rewrite IH.
Qed.

Lemma values_polls vs : map value (map (pollNotification r st) vs) = vs.
Proof.
  induction vs as [|v vs IH]; [reflexivity|]. cbn [map]. now rewrite IH.
Qed.

Lemma isPolling_completed : isPolling (completedNotification r st) = false.
Proof. destruct r; reflexivity. Qed.

Lemma isPolling_created : isPolling (createdNotification r st) = false.
Proof. reflexivity. Qed.

Lemma isPolling_unconfirmed startJob :
  isPolling (unconfirmedNotification w r st startJob) = false.
Proof. reflexivity. Qed.

Lemma isPolling_submitFailed e :
  isPolling (submitFailedNotification r st e) = false.
Proof. reflexivity. Qed.

Lemma isPolling_uploadFailed e :
  isPolling (uploadFailedNotification r st f e) = false.
Proof. reflexivity. Qed.

(** The polling notifications of an outcome. *)
Lemma polling_notesOf o :
  map value (filter isPolling (notesOf w r st f o))
  = match o with
    | Polling k | PollFailed k _ => pollValues r k (pollStart r)
    | Completed k => pollValues r (S k) (pollStart r)
    | _ => []
    end.
Proof.
  destruct o as [|e|e|startJob|k|k e|k]; unfold notesOf;
    rewrite ?filter_app, ?polling_uploadNotes;
    cbn [filter app map];
    rewrite ?isPolling_created, ?isPolling_uploadFailed,
      ?isPolling_submitFailed, ?isPolling_unconfirmed;
    rewrite ?filter_app, ?polling_polls; cbn [filter];
    rewrite ?isPolling_completed, ?isPolling_submitFailed, ?app_nil_r,
      ?values_polls;
    reflexivity.
Qed.

(** The notifications typed error of an outcome. *)
Lemma errors_notesOf o :
  filter isError (notesOf w r st f o)
  = match o with
    | UploadFailed e => [uploadFailedNotification r st f e]
    | CreateFailed e | PollFailed _ e => [submitFailedNotification r st e]
    | _ => []
    end.
Proof.
  destruct o as [|e|e|startJob|k|k e|k]; unfold notesOf;
    rewrite ?filter_app, ?errors_uploadNotes;
    cbn [filter app map isError ntype createdNotification];
    rewrite ?filter_app, ?errors_polls;
    reflexivity.
Qed.

End NoteFilters.

(** ** Ends of a submission *)

(** X1: every run of the handler is the run of its outcome: without a
    selected file it throws before anything is posted or called; with one,
    the validator's verdict, the way the upload and the creation settle and
    the answers of the status queries fix the completion, the component
    state and the whole trace. *)
Theorem submission_outcomes (w : World) (r : Revision) (st : ComponentState)
  (fuel : nat) :
  runSubmit w r st fuel
  = match filePath st with
    | None =>
        (Throw noFileError,
         {| component := submitting st;
            trace := [ Ev_preventDefault;
                       Ev_setIsSubmitting true;
                       Ev_setFormError "" ] |})
    | Some f => runOf w r st f (outcome w st f fuel)
    end.
Proof.
  destruct (filePath st) as [f|] eqn:Hfile.
  - now apply runSubmit_outcome.
  - now apply submitJob_no_file.
Qed.

(** X2: a submission without a selected file throws out of the handler
    before any notification, upload or remote call, and leaves
    [isSubmitting] true. *)
Theorem submit_without_file (w : World) (r : Revision) (st : ComponentState)
  (fuel : nat) :
  filePath st = None ->
  let run := runSubmit w r st fuel in
  (exists e, fst run = Throw e)
  /\ isSubmitting (component (snd run)) = true
  /\ notifications (trace (snd run)) = []
  /\ uploadCalls (trace (snd run)) = []
  /\ startCalls (trace (snd run)) = []
  /\ getCalls (trace (snd run)) = []
  /\ navigations (trace (snd run)) = [].
Proof.
  intros Hfile. cbv zeta. rewrite (submitJob_no_file w r st fuel Hfile).
  split; [now exists noFileError|]. repeat split.
Qed.

Lemma submit_without_file_witness :
  isSubmitting
    (component (snd (runSubmit Sample.completes TabsLayout
                       (render None "abc") 4))) = true
  /\ uploadCalls (trace (snd (runSubmit Sample.completes TabsLayout
                                (render None "abc") 4))) = [].
Proof.
  pose proof (submit_without_file Sample.completes TabsLayout
                (render None "abc") 4 eq_refl) as (_ & Hsub & _ & Hup & _).
  split; [exact Hsub|exact Hup].
Defined.

(** X3: when the validator rejects the parameters the handler returns at
    once: the form error is the validator's message, [isSubmitting] is
    false, and nothing was posted, uploaded, created, queried or navigated
    to. *)
Theorem validation_failure_touches_nothing (w : World) (r : Revision)
  (st : ComponentState) (f : File) (fuel : nat) :
  filePath st = Some f ->
  verified (verifyJobParams w (jobParamsOf w st f)) = false ->
  let run := runSubmit w r st fuel in
  fst run = Normal tt
  /\ formError (component (snd run))
     = verify_message (verifyJobParams w (jobParamsOf w st f))
  /\ isSubmitting (component (snd run)) = false
  /\ notifications (trace (snd run)) = []
  /\ uploadCalls (trace (snd run)) = []
  /\ startCalls (trace (snd run)) = []
  /\ getCalls (trace (snd run)) = []
  /\ navigations (trace (snd run)) = [].
Proof.
  intros Hfile Hver. cbv zeta.
  rewrite (submitJob_invalid w r st f fuel Hfile Hver). repeat split.
Qed.

Lemma validation_failure_touches_nothing_witness :
  formError (component (snd (runSubmit Cases.invalid RadioLayout
                               Sample.page 3)))
  = "Job name is required"
  /\ notifications (trace (snd (runSubmit Cases.invalid RadioLayout
                                  Sample.page 3))) = [].
Proof.
  pose proof (validation_failure_touches_nothing Cases.invalid RadioLayout
                Sample.page Sample.recording 3 eq_refl eq_refl)
    as (_ & Hform & _ & Hposted & _).
  split; [exact Hform|exact Hposted].
Defined.

(** X4: when the upload succeeds and the creation call throws, the handler
    throws the same error; it has posted exactly one notification typed
    error, the last one, with value 0 and the text
    [Error submitting job to HealthScribe: <message>]; it made one creation
    call and no status query, did not navigate, and [isSubmitting] is
    false. *)
Theorem creation_failure (w : World) (r : Revision) (st : ComponentState)
  (f : File) (e : Error) (fuel : nat) :
  filePath st = Some f ->
  verified (verifyJobParams w (jobParamsOf w st f)) = true ->
  uploadSettles w (uploadParamsOf w f) = Resolves tt ->
  startJobSettles w (jobParamsOf w st f) = Rejects e ->
  let run := runSubmit w r st fuel in
  let posted := notifications (trace (snd run)) in
  let failure := submitFailedNotification r st e in
  fst run = Throw e
  /\ filter isError posted = [failure]
  /\ last posted failure = failure
  /\ value failure = 0
  /\ additionalInfo failure
     = Some ("Error submitting job to HealthScribe: " ++ message e)
  /\ startCalls (trace (snd run)) = [jobParamsOf w st f]
  /\ getCalls (trace (snd run)) = []
  /\ navigations (trace (snd run)) = []
  /\ isSubmitting (component (snd run)) = false.
Proof.
  intros Hfile Hver Hup Hstart. cbv zeta.
  rewrite (runSubmit_outcome w r st f fuel Hfile).
  unfold outcome. rewrite Hver, Hup, Hstart. cbn [negb].
  rewrite notifications_runOf, startCalls_runOf, getCalls_runOf,
    navigations_runOf, errors_notesOf.
  cbn [notesOf]. rewrite last_last. repeat split.
Qed.

Lemma creation_failure_witness :
  fst (runSubmit Sample.createFails TabsLayout Sample.page 3)
  = Throw Sample.networkDown
  /\ map additionalInfo
       (filter isError
          (notifications (trace (snd (runSubmit Sample.createFails TabsLayout
                                        Sample.page 3)))))
     = [Some "Error submitting job to HealthScribe: Network Failure"].
Proof.
  pose proof (creation_failure Sample.createFails TabsLayout Sample.page
                Sample.recording Sample.networkDown 3
                eq_refl eq_refl eq_refl eq_refl) as (Hrun & Herr & _).
  cbv zeta in Herr.
  split; [exact Hrun|]. now rewrite Herr.
Defined.

(** X5: when the loop is reached, the first [k] status queries answer with a
    status other than COMPLETED and the next one throws, the handler (given
    a budget above [k]) throws that error: it has made [k + 1] queries,
    posted [k] polling notifications and then one typed error with the
    message, posted no success notification, did not navigate, and
    [isSubmitting] is false. *)
Theorem poll_failure (w : World) (r : Revision) (st : ComponentState)
  (f : File) (startJob : option Response) (e : Error) (k extra : nat) :
  filePath st = Some f ->
  verified (verifyJobParams w (jobParamsOf w st f)) = true ->
  uploadSettles w (uploadParamsOf w f) = Resolves tt ->
  startJobSettles w (jobParamsOf w st f) = Resolves startJob ->
  truthy (response_status startJob) = true ->
  (forall j, (j < k)%nat ->
             exists g, getJobSettles w j (jobName st) = Resolves g
                       /\ response_status g <> Some "COMPLETED") ->
  getJobSettles w k (jobName st) = Rejects e ->
  let run := runSubmit w r st (S k + extra) in
  let posted := notifications (trace (snd run)) in
  fst run = Throw e
  /\ posted
     = (uploadNotes w r st f
        ++ createdNotification r st
           :: map (pollNotification r st) (pollValues r k (pollStart r))
           ++ [submitFailedNotification r st e])%list
  /\ additionalInfo (submitFailedNotification r st e)
     = Some ("Error submitting job to HealthScribe: " ++ message e)
  /\ filter isSuccess posted = []
  /\ getCalls (trace (snd run)) = repeat (jobName st) (S k)
  /\ navigations (trace (snd run)) = []
  /\ isSubmitting (component (snd run)) = false.
Proof.
  intros Hfile Hver Hup Hstart Htruthy Hpolls He. cbv zeta.
  rewrite (runSubmit_outcome w r st f _ Hfile).
  unfold outcome. rewrite Hver, Hup, Hstart, Htruthy. cbn [negb].
  rewrite (pollOutcome_fails w st k extra 0 0 e).
  - rewrite notifications_runOf, getCalls_runOf, navigations_runOf.
    cbn [notesOf Nat.add]. repeat split.
    rewrite filter_app.
    replace (filter isSuccess (uploadNotes w r st f)) with (@nil ProgressNotification).
    + cbn [app filter isSuccess ntype createdNotification].
      rewrite filter_app. cbn.
      induction (pollValues r k (pollStart r)) as [|v vs IH];
        [reflexivity|exact IH].
    + unfold uploadNotes. cbn [filter isSuccess ntype initialNotification].
      induction (uploadProgress w _) as [|q l IH]; [reflexivity|exact IH].
  - intros j Hj. destruct (Hpolls j) as (g & Hg & Hs); [lia|].
    exists g. split; [exact Hg|]. now apply strict_eq_other.
  - exact He.
Qed.

Lemma poll_failure_witness :
  fst (runSubmit (Cases.failsAfter 2) RadioLayout Sample.page 5)
  = Throw Sample.networkDown
  /\ getCalls (trace (snd (runSubmit (Cases.failsAfter 2) RadioLayout
                             Sample.page 5)))
     = ["session-abc"; "session-abc"; "session-abc"].
Proof.
  assert (forall j, (j < 2)%nat ->
            exists g,
              getJobSettles (Cases.failsAfter 2) j (jobName Sample.page)
              = Resolves g
              /\ response_status g <> Some "COMPLETED") as Hpolls.
  { intros j Hj. exists (Sample.withStatus "IN_PROGRESS").
    destruct j as [|[|j]]; [split; [reflexivity|discriminate]..|lia]. }
  pose proof (poll_failure (Cases.failsAfter 2) RadioLayout Sample.page
                Sample.recording (Sample.withStatus "SUBMITTED")
                Sample.networkDown 2 2
                eq_refl eq_refl eq_refl eq_refl eq_refl Hpolls eq_refl)
    as (Hrun & _ & _ & _ & Hget & _).
  split; [exact Hrun|exact Hget].
Defined.



(** ** The values of the polling notifications *)

Lemma advanceN_closed (r : Revision) (i : nat) :
  advanceN r i (pollStart r) = pollValueAt r i.
Proof.
  induction i as [|i IH]; [destruct r; reflexivity|].
  rewrite advanceN_snoc, IH. unfold advance, pollValueAt.
  destruct r; cbn [pollStart pollStep pollCap];
    match goal with
    | |- context [?a >=? ?b] => destruct (Z.geb_spec a b)
    end; lia.
Qed.

Lemma pollValues_closed (r : Revision) (k : nat) : forall i,
  pollValues r k (advanceN r i (pollStart r))
  = map (pollValueAt r) (seq i k).
Proof.
  induction k as [|k IH]; intros i; [reflexivity|].
  cbn [pollValues seq map].
  rewrite <- advanceN_snoc, IH, advanceN_closed. reflexivity.
Qed.

Lemma pollValueAt_step (r : Revision) (i : nat) :
  pollStart r <= pollValueAt r i <= pollValueAt r (S i)
  /\ pollValueAt r (S i) <= pollCap r.
Proof.
  unfold pollValueAt. destruct r; cbn [pollStart pollStep pollCap]; lia.
Qed.

Lemma nondecreasing_pollValueAt (r : Revision) (m : nat) : forall i,
  nondecreasing (map (pollValueAt r) (seq i m)) = true.
Proof.
  induction m as [|m IH]; intros i; [reflexivity|].
  destruct m as [|m]; [reflexivity|].
  specialize (IH (S i)).
  cbn [seq map] in IH |- *. cbn [nondecreasing].
  apply andb_true_iff. split; [|exact IH].
  apply Z.leb_le. apply pollValueAt_step.
Qed.

Lemma bounded_pollValueAt (r : Revision) (m : nat) : forall i,
  Forall (fun v => pollStart r <= v <= pollCap r)
         (map (pollValueAt r) (seq i m)).
Proof.
  induction m as [|m IH]; intros i; [constructor|].
  cbn [seq map]. constructor; [|apply IH].
  destruct i as [|i].
  - destruct r; vm_compute; split; discriminate.
  - pose proof (pollValueAt_step r i). pose proof (pollValueAt_step r (S i)).
    lia.
Qed.

(** The polling notifications of any run carry the first values of the
    sequence, as many as there were iterations. *)
Lemma polling_of_run (w : World) (r : Revision) (st : ComponentState)
  (f : File) (fuel : nat) :
  filePath st = Some f ->
  exists m,
    (m <= fuel)%nat
    /\ map value
         (filter isPolling
            (notifications (trace (snd (runSubmit w r st fuel)))))
       = map (pollValueAt r) (seq 0 m).
Proof.
  intros Hfile.
  rewrite (runSubmit_outcome w r st f fuel Hfile), notifications_runOf,
    polling_notesOf.
  unfold outcome.
  destruct (negb _); [exists 0%nat; split; [lia|reflexivity]|].
  destruct (uploadSettles w _) as [[]|e];
    [|exists 0%nat; split; [lia|reflexivity]].
  destruct (startJobSettles w _) as [startJob|e];
    [|exists 0%nat; split; [lia|reflexivity]].
  destruct (truthy _); [|exists 0%nat; split; [lia|reflexivity]].
  pose proof (pollOutcome_bound w st fuel 0 0) as Hb.
  destruct (pollOutcome w st fuel 0 0) as [| | | |k|k e|k];
    try contradiction.
  - exists k. split; [lia|]. apply (pollValues_closed r k 0).
  - exists k. split; [lia|]. apply (pollValues_closed r k 0).
  - exists (S k). split; [lia|]. apply (pollValues_closed r (S k) 0).
Qed.

(** X7: in every run, the [i]-th polling notification (counting from 0)
    carries the value [min(start + i * step, cap)], with start 10, step 5
    and cap 90 in the radio revision and 5, 3 and 95 in the tabs revision,
    and there are no more polling notifications than iterations allowed. *)
Theorem polling_values_closed_form (w : World) (r : Revision)
  (st : ComponentState) (f : File) (fuel : nat) :
  filePath st = Some f ->
  let polls :=
    map value
      (filter isPolling
         (notifications (trace (snd (runSubmit w r st fuel))))) in
  polls = map (pollValueAt r) (seq 0 (length polls))
  /\ (length polls <= fuel)%nat.
Proof.
  intros Hfile. cbv zeta.
  destruct (polling_of_run w r st f fuel Hfile) as (m & Hm & ->).
  rewrite length_map, length_seq. now split.
Qed.

Lemma polling_values_closed_form_witness :
  map value
    (filter isPolling
       (notifications (trace (snd (runSubmit Sample.jobFails RadioLayout
                                     Sample.page 18)))))
  = [10; 15; 20; 25; 30; 35; 40; 45; 50; 55; 60; 65; 70; 75; 80; 85; 90; 90].
Proof.
  pose proof (polling_values_closed_form Sample.jobFails RadioLayout
                Sample.page Sample.recording 18 eq_refl) as [Hpolls _].
  cbv zeta in Hpolls. rewrite Hpolls. reflexivity.
Defined.

(** X8: in every run the values of the polling notifications never go down
    from one to the next, and each lies between the start value and the cap
    of the revision, hence below 100. *)
Theorem polling_values_monotone (w : World) (r : Revision)
  (st : ComponentState) (f : File) (fuel : nat) :
  filePath st = Some f ->
  let polls :=
    map value
      (filter isPolling
         (notifications (trace (snd (runSubmit w r st fuel))))) in
  nondecreasing polls = true
  /\ Forall (fun v => pollStart r <= v <= pollCap r) polls
  /\ pollCap r < 100.
Proof.
  intros Hfile. cbv zeta.
  destruct (polling_of_run w r st f fuel Hfile) as (m & _ & ->).
  split; [apply nondecreasing_pollValueAt|].
  split; [apply bounded_pollValueAt|destruct r; reflexivity].
Qed.

Lemma polling_values_monotone_witness :
  nondecreasing
    (map value
       (filter isPolling
          (notifications (trace (snd (runSubmit Sample.jobFails TabsLayout
                                        Sample.page 40))))))
  = true.
Proof.
  exact (proj1 (polling_values_monotone Sample.jobFails TabsLayout
                  Sample.page Sample.recording 40 eq_refl)).
Defined.

(** ** What a run calls, and when *)

(** The outcomes by what led to them. *)
Lemma outcome_cases (w : World) (st : ComponentState) (f : File)
  (fuel : nat) :
  let o := outcome w st f fuel in
  match o with
  | Invalid => verified (verifyJobParams w (jobParamsOf w st f)) = false
  | UploadFailed e =>
      verified (verifyJobParams w (jobParamsOf w st f)) = true
      /\ uploadSettles w (uploadParamsOf w f) = Rejects e
  | CreateFailed e =>
      verified (verifyJobParams w (jobParamsOf w st f)) = true
      /\ uploadSettles w (uploadParamsOf w f) = Resolves tt
      /\ startJobSettles w (jobParamsOf w st f) = Rejects e
  | Unconfirmed startJob =>
      verified (verifyJobParams w (jobParamsOf w st f)) = true
      /\ uploadSettles w (uploadParamsOf w f) = Resolves tt
      /\ startJobSettles w (jobParamsOf w st f) = Resolves startJob
      /\ truthy (response_status startJob) = false
  | Polling _ | PollFailed _ _ | Completed _ =>
      verified (verifyJobParams w (jobParamsOf w st f)) = true
      /\ uploadSettles w (uploadParamsOf w f) = Resolves tt
      /\ (exists startJob,
             startJobSettles w (jobParamsOf w st f) = Resolves startJob
             /\ truthy (response_status startJob) = true)
      /\ o = pollOutcome w st fuel 0 0
  end.
Proof.
  cbv zeta. unfold outcome.
  destruct (verified _) eqn:Hver; cbn [negb]; [|reflexivity].
  destruct (uploadSettles w _) as [[]|e] eqn:Hup; [|now split].
  destruct (startJobSettles w _) as [startJob|e] eqn:Hstart; [|now repeat split].
  destruct (truthy _) eqn:Htruthy; [|now repeat split].
  pose proof (pollOutcome_ofLoop w st fuel 0 0) as Hof.
  destruct (pollOutcome w st fuel 0 0) eqn:Ho; try discriminate Hof;
    (split; [reflexivity|]; split; [reflexivity|]; split; [|reflexivity];
     exists startJob; now split).
Qed.

(** X9: in every run the handler uploads at most once and calls
    [startMedicalScribeJob] at most once; it uploads only when the validator
    accepted the parameters, and it creates the job only when, besides, the
    upload resolved. *)
Theorem upload_then_create_at_most_once (w : World) (r : Revision)
  (st : ComponentState) (f : File) (fuel : nat) :
  filePath st = Some f ->
  let t := trace (snd (runSubmit w r st fuel)) in
  (uploadCalls t = []
   \/ uploadCalls t = [uploadParamsOf w f]
      /\ verified (verifyJobParams w (jobParamsOf w st f)) = true)
  /\ (startCalls t = []
      \/ startCalls t = [jobParamsOf w st f]
         /\ uploadCalls t = [uploadParamsOf w f]
         /\ verified (verifyJobParams w (jobParamsOf w st f)) = true
         /\ uploadSettles w (uploadParamsOf w f) = Resolves tt).
Proof.
  intros Hfile. cbv zeta.
  rewrite (runSubmit_outcome w r st f fuel Hfile), uploadCalls_runOf,
    startCalls_runOf.
  pose proof (outcome_cases w st f fuel) as H. cbv zeta in H.
  destruct (outcome w st f fuel) as [|e|e|startJob|k|k e|k].
  - split; left; reflexivity.
  - split; [right; split; [reflexivity|apply H]|left; reflexivity].
  - split; right; repeat split; apply H.
  - split; right; repeat split; apply H.
  - split; right; repeat split; apply H.
  - split; right; repeat split; apply H.
  - split; right; repeat split; apply H.
Qed.

Lemma upload_then_create_at_most_once_witness :
  uploadCalls (trace (snd (runSubmit Sample.uploadFails TabsLayout
                             Sample.page 2)))
  = [uploadParamsOf Sample.uploadFails Sample.recording]
  /\ startCalls (trace (snd (runSubmit Sample.uploadFails TabsLayout
                               Sample.page 2))) = [].
Proof.
  pose proof (upload_then_create_at_most_once Sample.uploadFails TabsLayout
                Sample.page Sample.recording 2 eq_refl) as [_ _].
  split; reflexivity.
Defined.

(** X10: the job is created for the object that was uploaded: whenever a run
    has both uploaded and called [startMedicalScribeJob], the media URI of
    the job is [s3://<bucket>/<key>] of the upload, the key being the
    session's key followed by [/] and the file's name; the uploaded body is
    the selected file, sent with its type; the job carries the page's job
    name and the configured output bucket and role. *)
Theorem job_created_for_uploaded_object (w : World) (r : Revision)
  (st : ComponentState) (f : File) (fuel : nat) (p : JobParams)
  (u : UploadParams) :
  filePath st = Some f ->
  In p (startCalls (trace (snd (runSubmit w r st fuel)))) ->
  In u (uploadCalls (trace (snd (runSubmit w r st fuel)))) ->
  MediaFileUri p
  = "s3://" ++ Bucket (upload_location u) ++ "/" ++ Key (upload_location u)
  /\ Bucket (upload_location u) = Bucket (getUploadMetadata w)
  /\ Key (upload_location u) = Key (getUploadMetadata w) ++ "/" ++ name f
  /\ Body u = f
  /\ ContentType u = type f
  /\ MedicalScribeJobName p = jobName st
  /\ OutputBucketName p = outputBucket w
  /\ DataAccessRoleArn p = healthScribeServiceRole w.
Proof.
  intros Hfile Hp Hu.
  rewrite (runSubmit_outcome w r st f fuel Hfile) in Hp, Hu.
  rewrite startCalls_runOf in Hp. rewrite uploadCalls_runOf in Hu.
  assert (p = jobParamsOf w st f) as ->.
  { destruct (outcome w st f fuel); cbn in Hp; intuition congruence. }
  assert (u = uploadParamsOf w f) as ->.
  { destruct (outcome w st f fuel); cbn in Hu; intuition congruence. }
  repeat split.
Qed.

Lemma job_created_for_uploaded_object_witness :
  MediaFileUri (jobParamsOf Sample.completes Sample.page Sample.recording)
  = "s3://in-bucket/uploads/u1/visit.wav"
  /\ Key (upload_location (uploadParamsOf Sample.completes Sample.recording))
     = "uploads/u1/visit.wav".
Proof.
  assert (In (jobParamsOf Sample.completes Sample.page Sample.recording)
             (startCalls (trace (snd (runSubmit Sample.completes RadioLayout
                                        Sample.page 2))))) as Hp
    by (left; reflexivity).
  assert (In (uploadParamsOf Sample.completes Sample.recording)
             (uploadCalls (trace (snd (runSubmit Sample.completes RadioLayout
                                         Sample.page 2))))) as Hu
    by (left; reflexivity).
  pose proof (job_created_for_uploaded_object Sample.completes RadioLayout
                Sample.page Sample.recording 2 _ _ eq_refl Hp Hu)
    as (Huri & _ & Hkey & _).
  split; [exact Huri|exact Hkey].
Defined.

(** X11: the handler navigates only on success: a run that has navigated has
    done so once, to [/conversation/<job name>], has returned normally, has
    posted the success notification as its last one and none typed error,
    and some status query within the budget answered COMPLETED. *)
Theorem navigation_only_on_success (w : World) (r : Revision)
  (st : ComponentState) (f : File) (fuel : nat) :
  filePath st = Some f ->
  navigations (trace (snd (runSubmit w r st fuel))) <> [] ->
  let run := runSubmit w r st fuel in
  let posted := notifications (trace (snd run)) in
  navigations (trace (snd run)) = ["/conversation/" ++ jobName st]
  /\ fst run = Normal tt
  /\ last posted (initialNotification r) = completedNotification r st
  /\ filter isError posted = []
  /\ exists n g,
       (n < fuel)%nat
       /\ getJobSettles w n (jobName st) = Resolves g
       /\ response_status g = Some "COMPLETED".
Proof.
  intros Hfile Hnav. cbv zeta.
  rewrite (runSubmit_outcome w r st f fuel Hfile) in Hnav |- *.
  rewrite navigations_runOf in Hnav.
  rewrite navigations_runOf, notifications_runOf, errors_notesOf.
  pose proof (outcome_cases w st f fuel) as H. cbv zeta in H.
  destruct (outcome w st f fuel) as [|e|e|startJob|k|k e|k];
    try (now contradiction Hnav).
  destruct H as (_ & _ & _ & Ho).
  split; [reflexivity|]. split; [reflexivity|]. split; [|split; [reflexivity|]].
  - cbn [notesOf].
    change (createdNotification r st
            :: map (pollNotification r st) (pollValues r (S k) (pollStart r))
            ++ [completedNotification r st])%list
      with ((createdNotification r st
             :: map (pollNotification r st) (pollValues r (S k) (pollStart r)))
            ++ [completedNotification r st])%list.
    rewrite app_assoc. apply last_last.
  - pose proof (pollOutcome_bound w st fuel 0 0) as Hb.
    rewrite <- Ho in Hb. destruct Hb as (Hk & g & Hg & Hs).
    exists (0 + (k - 0))%nat, g. split; [lia|]. split; [exact Hg|].
    destruct (response_status g) as [v|]; [|discriminate Hs].
    cbn in Hs. apply String.eqb_eq in Hs. now subst v.
Qed.

Lemma navigation_only_on_success_witness :
  fst (runSubmit Sample.completes TabsLayout Sample.page 2) = Normal tt
  /\ filter isError
       (notifications (trace (snd (runSubmit Sample.completes TabsLayout
                                     Sample.page 2)))) = [].
Proof.
  assert (navigations (trace (snd (runSubmit Sample.completes TabsLayout
                                     Sample.page 2))) <> []) as Hnav
    by discriminate.
  pose proof (navigation_only_on_success Sample.completes TabsLayout
                Sample.page Sample.recording 2 eq_refl Hnav)
    as (_ & Hrun & _ & Herr & _).
  split; [exact Hrun|exact Herr].
Defined.

Lemma last_after_cons {A} (a : list A) (b : A) (c : list A) (x d : A) :
  last (a ++ b :: c ++ [x]) d = x.
Proof.
  change (b :: c ++ [x])%list with ((b :: c) ++ [x])%list.
  rewrite app_assoc. apply last_last.
Qed.

(** X12: a run throws exactly when it has posted a notification typed error:
    a run that throws [e] has posted exactly one, as its last notification,
    with value 0 and a text that ends with the message of [e]; a run that
    returns or is still pending has posted none. *)
Theorem error_notification_iff_throw (w : World) (r : Revision)
  (st : ComponentState) (f : File) (fuel : nat) :
  filePath st = Some f ->
  let run := runSubmit w r st fuel in
  let posted := notifications (trace (snd run)) in
  match fst run with
  | Throw e =>
      exists n,
        filter isError posted = [n]
        /\ last posted n = n
        /\ value n = 0
        /\ (additionalInfo n
            = Some ("Error uploading " ++ name f ++ ": " ++ message e)
            \/ additionalInfo n
               = Some ("Error submitting job to HealthScribe: " ++ message e))
  | _ => filter isError posted = []
  end.
Proof.
  intros Hfile. cbv zeta.
  rewrite (runSubmit_outcome w r st f fuel Hfile), notifications_runOf,
    errors_notesOf.
  destruct (outcome w st f fuel) as [|e|e|startJob|k|k e|k];
    cbn [runOf fst]; try reflexivity.
  - exists (uploadFailedNotification r st f e). cbn [notesOf].
    rewrite last_last. repeat split. now left.
  - exists (submitFailedNotification r st e). cbn [notesOf].
    rewrite last_last. repeat split. now right.
  - exists (submitFailedNotification r st e). cbn [notesOf].
    rewrite last_after_cons. repeat split. now right.
Qed.

Lemma error_notification_iff_throw_witness :
  map additionalInfo
    (filter isError
       (notifications (trace (snd (runSubmit Sample.pollFails RadioLayout
                                     Sample.page 5)))))
  = [Some "Error submitting job to HealthScribe: Network Failure"].
Proof.
  pose proof (error_notification_iff_throw Sample.pollFails RadioLayout
                Sample.page Sample.recording 5 eq_refl) as H.
  cbv zeta in H.
  change (fst (runSubmit Sample.pollFails RadioLayout Sample.page 5))
    with (@Throw unit Sample.networkDown) in H.
  destruct H as (n & Herr & _). reflexivity.
Defined.

(** X13: a submission that passes the validator leaves the form without an
    error, whatever error the form showed before and however the submission
    ends; one that does not pass leaves the validator's message. *)
Theorem form_error_after_submission (w : World) (r : Revision)
  (st : ComponentState) (f : File) (fuel : nat) :
  filePath st = Some f ->
  formError (component (snd (runSubmit w r st fuel)))
  = if verified (verifyJobParams w (jobParamsOf w st f))
    then ""
    else verify_message (verifyJobParams w (jobParamsOf w st f)).
Proof.
  intros Hfile.
  rewrite (runSubmit_outcome w r st f fuel Hfile), component_runOf.
  pose proof (outcome_cases w st f fuel) as H. cbv zeta in H.
  destruct (outcome w st f fuel) as [|e|e|startJob|k|k e|k];
    [rewrite H; reflexivity|..];
    destruct H as [Hver _]; rewrite Hver; reflexivity.
Qed.

Lemma form_error_after_submission_witness :
  formError Cases.stalePage = "Job name is required"
  /\ formError (component (snd (runSubmit Sample.uploadFails RadioLayout
                                  Cases.stalePage 2))) = "".
Proof.
  split; [reflexivity|].
  exact (form_error_after_submission Sample.uploadFails RadioLayout
           Cases.stalePage Sample.recording 2 eq_refl).
Defined.

(** ** The page after a submission *)

Lemma render_kept (c : ComponentState) (uuid : string) :
  render (Some c) uuid = c.
Proof. destruct c. reflexivity. Qed.

Lemma flags_app a b : flags (a ++ b) = (flags a ++ flags b)%list.
Proof. apply flat_map_app. Qed.

Lemma flags_uploadPhase (w : World) (r : Revision) (st : ComponentState)
  (f : File) :
  flags (uploadPhase w r st f) = [true].
Proof.
  unfold uploadPhase. rewrite flags_app. cbn [flags flat_map app].
  induction (uploadProgress w _) as [|q l IH]; [reflexivity|exact IH].
Qed.

Lemma flags_pollPhase (r : Revision) (st : ComponentState) (k : nat) :
  forall progress, flags (pollPhase r st k progress) = [].
Proof.
  induction k as [|k IH]; intros progress; [reflexivity|].
  cbn [pollPhase]. rewrite flags_app, IH. reflexivity.
Qed.

Lemma flags_runOf (w : World) (r : Revision) (st : ComponentState)
  (f : File) (o : Outcome) :
  flags (trace (snd (runOf w r st f o)))
  = true :: match o with
            | Polling _ => []
            | _ => [false]
            end.
Proof.
  destruct o as [|e|e|startJob|k|k e|k];
    unfold runOf, created, uploaded, failed, finish, extend, completedPhase;
    cbn [snd trace];
    rewrite ?flags_app, ?flags_uploadPhase, ?flags_pollPhase;
    reflexivity.
Qed.

Lemma last_two {A} (a : list A) (x y d : A) : last (a ++ [x; y]) d = y.
Proof.
  change [x; y] with ([x] ++ [y])%list. rewrite app_assoc. apply last_last.
Qed.

Lemma last_runOf (w : World) (r : Revision) (st : ComponentState)
  (f : File) (o : Outcome) :
  last (trace (snd (runOf w r st f o))) Ev_preventDefault
  = match o with
    | Polling k =>
        last (trace (snd (runOf w r st f (Polling k)))) Ev_preventDefault
    | _ => Ev_setIsSubmitting false
    end.
Proof.
  destruct o as [|e|e|startJob|k|k e|k];
    unfold runOf, failed, finish; cbn [snd trace];
    try apply last_two; try apply last_last; reflexivity.
Qed.

Lemma head_runOf (w : World) (r : Revision) (st : ComponentState)
  (f : File) (o : Outcome) :
  exists rest,
    trace (snd (runOf w r st f o))
    = Ev_preventDefault :: Ev_setIsSubmitting true :: rest.
Proof.
  destruct o as [|e|e|startJob|k|k e|k];
    unfold runOf, created, uploaded, failed, finish, extend, uploadPhase;
    cbn [snd trace app]; eexists; reflexivity.
Qed.

(** X14: from a page with a selected file, the handler sets [isSubmitting]
    to true as its first change of state, before the upload and every remote
    call, and sets it back to false once only, as its last act before it
    returns or throws again, and not at all while it has not come to an end.
    So the submit button, disabled while [isSubmitting], is disabled on a
    page rendered while the handler is still in the loop and enabled on the
    page rendered after it has come to an end.  On a freshly mounted page,
    which has no file, it is disabled. *)
Theorem submit_button_follows_run (w : World) (r : Revision)
  (st : ComponentState) (f : File) (fuel : nat) (uuid : string) :
  filePath st = Some f ->
  let run := submitFrom w r st fuel in
  let t := trace (snd run) in
  (exists rest, t = Ev_preventDefault :: Ev_setIsSubmitting true :: rest)
  /\ flags t = true :: match fst run with
                       | Pending => []
                       | _ => [false]
                       end
  /\ (fst run <> Pending ->
      last t Ev_preventDefault = Ev_setIsSubmitting false)
  /\ submitDisabled (rerender run uuid)
     = match fst run with
       | Pending => true
       | _ => false
       end
  /\ submitDisabled (render None uuid) = true.
Proof.
  intros Hfile. cbv zeta. unfold submitFrom.
  split; [|split; [|split; [|split; [|reflexivity]]]].
  - rewrite (runSubmit_outcome w r st f fuel Hfile). apply head_runOf.
  - rewrite (runSubmit_outcome w r st f fuel Hfile), flags_runOf.
    destruct (outcome w st f fuel); reflexivity.
  - rewrite (runSubmit_outcome w r st f fuel Hfile), last_runOf.
    destruct (outcome w st f fuel); cbn [runOf fst]; intros H;
      try reflexivity; now contradiction H.
  - unfold rerender. rewrite render_kept.
    destruct (runSubmit_component w r st fuel) as [(_ & _ & _ & Hf) Hsub].
    unfold submitDisabled.
    rewrite Hsub by (rewrite Hfile; discriminate).
    rewrite Hf, Hfile.
    destruct (fst (runSubmit w r st fuel)); reflexivity.
Qed.

Lemma submit_button_follows_run_witness :
  flags (trace (snd (submitFrom Sample.createFails RadioLayout
                       Sample.page 7))) = [true; false]
  /\ submitDisabled (rerender (submitFrom Sample.jobFails RadioLayout
                                 Sample.page 7) "def") = true
  /\ submitDisabled (rerender (submitFrom Sample.createFails RadioLayout
                                 Sample.page 7) "def") = false.
Proof.
  pose proof (submit_button_follows_run Sample.createFails RadioLayout
                Sample.page Sample.recording 7 "def" eq_refl)
    as (_ & Hflags & _ & Hended & _).
  pose proof (submit_button_follows_run Sample.jobFails RadioLayout
                Sample.page Sample.recording 7 "def" eq_refl)
    as (_ & _ & _ & Hpending & _).
  split; [exact Hflags|]. split; [exact Hpending|exact Hended].
Defined.



(** ** Generated names *)

(** X16: pages mounted with different values of [uuidv4] carry different
    job names, each the value prefixed with [session-]. *)
Theorem mounted_names_distinct (u1 u2 : string) :
  u1 <> u2 ->
  jobName (render None u1) <> jobName (render None u2)
  /\ jobName (render None u1) = "session-" ++ u1.
Proof.
  intros Hne. split; [|reflexivity].
  cbn. intros H. apply Hne. now inversion H.
Qed.

Lemma mounted_names_distinct_witness :
  jobName (render None "abc") <> jobName (render None "abd").
Proof.
  assert ("abc" <> "abd") as Hne by discriminate.
  exact (proj1 (mounted_names_distinct "abc" "abd" Hne)).
Defined.

(** ** More on the upload progress value *)

Lemma or_default_loaded_mono (l1 l2 : Z) :
  0 <= l1 <= l2 -> 0 < or_default (Some l1) 1 <= or_default (Some l2) 1.
Proof.
  intros H. unfold or_default.
  destruct (Z.eqb_spec l1 0), (Z.eqb_spec l2 0); lia.
Qed.

(** X17: for a fixed total that is absent or not negative, the progress
    value does not go down when [loaded] goes up: reports with
    [0 <= loaded1 <= loaded2] give [value1 <= value2], the quotient and the
    product being rounded as doubles. *)
Theorem uploadValue_monotone (p1 p2 : Progress) (l1 l2 : Z) :
  loaded p1 = Some l1 ->
  loaded p2 = Some l2 ->
  total p1 = total p2 ->
  0 < or_default (total p1) 100 ->
  0 <= l1 <= l2 ->
  uploadValue p1 <= uploadValue p2.
Proof.
  intros H1 H2 Ht Hpos Hl. unfold uploadValue.
  rewrite H1, H2, <- Ht.
  destruct (or_default_loaded_mono l1 l2 Hl) as [Hl1 Hl12].
  set (a := or_default (Some l1) 1) in *.
  set (b := or_default (Some l2) 1) in *.
  set (t := or_default (total p1) 100) in *.
  assert (0 < / inject_Z t)%Q as Hinv.
  { apply Qinv_lt_0_compat. now apply (inject_Z_lt_iff 0 t). }
  assert (0 <= inject_Z a / inject_Z t)%Q as Hqa.
  { unfold Qdiv. apply Qmult_le_0_compat; [|now apply Qlt_le_weak].
    apply (inject_Z_le_iff 0 a). lia. }
  assert (inject_Z a / inject_Z t <= inject_Z b / inject_Z t)%Q as Hq.
  { unfold Qdiv. apply Qmult_le_compat_r; [|now apply Qlt_le_weak].
    now apply inject_Z_le_iff. }
  apply Math_round_mono. unfold fmul, fdiv.
  pose proof (round64_nonneg _ Hqa) as Hxa.
  pose proof (round64_mono _ _ Hqa Hq) as Hx.
  apply round64_mono; [lra|].
  apply Qmult_le_compat_r; [exact Hx|discriminate].
Qed.

Lemma uploadValue_monotone_witness :
  uploadValue Sample.halfway <= uploadValue Sample.finished.
Proof.
  apply (uploadValue_monotone Sample.halfway Sample.finished
           5242880 10485760 eq_refl eq_refl eq_refl);
    vm_compute; [reflexivity|split; discriminate].
Defined.

(** X18: while [loaded] does not exceed a positive [total] the value is at
    most 99, and the report with everything loaded, [loaded = total], gives
    exactly 99: such an upload brings the bar to 99 and not to 100. *)
Theorem uploadValue_complete (p : Progress) (l t : Z) :
  loaded p = Some l ->
  total p = Some t ->
  0 < t ->
  0 <= l <= t ->
  uploadValue p <= 99 /\ (l = t -> uploadValue p = 99).
Proof.
  intros Hl Ht Hpos Hlt.
  assert (or_default (total p) 100 = t) as Hdt.
  { rewrite Ht. unfold or_default.
    destruct (Z.eqb_spec t 0); [lia|reflexivity]. }
  split.
  - apply uploadValue_range. rewrite Hdt, Hl.
    destruct (or_default_loaded_mono l t Hlt) as [H0 H1].
    replace (or_default (Some t) 1) with t in H1
      by (unfold or_default; destruct (Z.eqb_spec t 0); [lia|reflexivity]).
    lia.
  - intros ->. unfold uploadValue. rewrite Hl, Hdt.
    replace (or_default (Some t) 1) with t
      by (unfold or_default; destruct (Z.eqb_spec t 0); [lia|reflexivity]).
    assert (inject_Z t / inject_Z t == 1)%Q as Hq.
    { apply Qmult_inv_r. intros H. change 0%Q with (inject_Z 0) in H.
      rewrite inject_Z_injective in H. lia. }
    assert (fdiv (inject_Z t) (inject_Z t) == 1)%Q as Hx.
    { unfold fdiv. apply Qle_antisym.
      - apply (round64_le_int _ 1); [rewrite Hq; discriminate| |reflexivity].
        rewrite Hq. apply Qle_refl.
      - apply (round64_ge_int _ 1); [reflexivity| |reflexivity].
        rewrite Hq. apply Qle_refl. }
    apply (Math_round_int _ 99). unfold fmul.
    assert (fdiv (inject_Z t) (inject_Z t) * 99 == inject_Z 99)%Q as Hp
      by (rewrite Hx; reflexivity).
    apply Qle_antisym.
    + apply (round64_le_int _ 99); [rewrite Hp; discriminate| |reflexivity].
      rewrite Hp. apply Qle_refl.
    + apply (round64_ge_int _ 99); [reflexivity| |reflexivity].
      rewrite Hp. apply Qle_refl.
Qed.

Lemma uploadValue_complete_witness : uploadValue Sample.finished = 99.
Proof.
  apply (uploadValue_complete Sample.finished 10485760 10485760
           eq_refl eq_refl); [reflexivity|split; discriminate|reflexivity].
Defined.

(** ** What the handler leaves alone *)

(** X19: the handler changes nothing of the form but the submitting flag and
    the form error: after any run, ended or not, the job name, the audio
    selection, the audio details and the selected file are those of the
    page it was started from. *)
Theorem handler_keeps_form (w : World) (r : Revision) (st : ComponentState)
  (fuel : nat) :
  let after := component (snd (runSubmit w r st fuel)) in
  jobName after = jobName st
  /\ audioSelection after = audioSelection st
  /\ audioDetails after = audioDetails st
  /\ filePath after = filePath st.
Proof.
  cbv zeta. destruct (runSubmit_component w r st fuel) as [H _]. exact H.
Qed.
